(** * StrokeEngine: a shallow embedding of [src/StrokeEngine.cpp]

    The engine is a C++ class driving one stepper (a process-wide
    [FastAccelStepper *servo]) through the patterns of a process-wide
    [patternTable].  Its methods read and write the object's fields, the
    selected pattern object and the driver, so they are modelled as
    computations in a state monad over a [world] holding the three.  A
    computation may have no defined result (an array access out of bounds, a
    call through the null [servo], a floating-point value converted to an
    [int] that cannot hold it): that is the [None] outcome.

    Numbers.  [int] is [Z] with 32-bit two's-complement wrap-around written
    out where the code computes.  [float]/[double] values are modelled by
    exact rationals together with the three IEEE special values; rounding
    and the sign of zero are not modelled. *)

From Stdlib Require Import ZArith QArith Qround Lia Bool String Decimal DecimalString.
From stdpp Require Import base list.

Local Open Scope Z_scope.

(** ** Machine integers *)

Module Int32.

Definition min_int : Z := - 2 ^ 31.
Definition max_int : Z := 2 ^ 31 - 1.

Definition in_range (z : Z) : bool := (min_int <=? z) && (z <=? max_int).

(** Two's-complement wrap-around of a mathematical integer into [int]. *)
Definition wrap (z : Z) : Z := (z + 2 ^ 31) mod 2 ^ 32 - 2 ^ 31.

Definition add (a b : Z) : Z := wrap (a + b).
Definition sub (a b : Z) : Z := wrap (a - b).
Definition mul (a b : Z) : Z := wrap (a * b).
(** C++ integer division truncates toward zero. *)
Definition div (a b : Z) : Z := wrap (Z.quot a b).

(** The value of an [int] once converted to [unsigned int], as the usual
    arithmetic conversions do when it meets an unsigned operand: a negative
    [i] becomes [i + 2^32]. *)
Definition to_unsigned (i : Z) : Z := if i <? 0 then i + 2 ^ 32 else i.

End Int32.

(** ** Floating-point values *)

Module Fp.

Inductive double : Type :=
| Fin (q : Q)
| PInf
| NInf
| NaN.

Definition of_int (z : Z) : double := Fin (inject_Z z).

Definition Qlt_bool (a b : Q) : bool := negb (Qle_bool b a).

Definition neg (a : double) : double :=
  match a with
  | Fin q => Fin (- q)
  | PInf => NInf
  | NInf => PInf
  | NaN => NaN
  end.

Definition add (a b : double) : double :=
  match a, b with
  | NaN, _ | _, NaN => NaN
  | Fin x, Fin y => Fin (x + y)
  | PInf, NInf | NInf, PInf => NaN
  | PInf, _ | _, PInf => PInf
  | NInf, _ | _, NInf => NInf
  end.

Definition sub (a b : double) : double := add a (neg b).

(** [Some true] for a negative value, [Some false] for a positive one,
    [None] for zero and NaN. *)
Definition sign (a : double) : option bool :=
  match a with
  | Fin q => if Qeq_bool q 0 then None else Some (Qlt_bool q 0)
  | PInf => Some false
  | NInf => Some true
  | NaN => None
  end.

Definition inf (negative : bool) : double := if negative then NInf else PInf.

Definition mul (a b : double) : double :=
  match a, b with
  | NaN, _ | _, NaN => NaN
  | Fin x, Fin y => Fin (x * y)
  | _, _ =>
      match sign a, sign b with
      | Some sa, Some sb => inf (xorb sa sb)
      | _, _ => NaN                       (* infinity times zero *)
      end
  end.

(** IEEE division: a finite non-zero value over zero is an infinity, zero
    over zero is NaN.  The zero of the model is the positive zero, the one
    every conversion from an [int] in the source produces; a negative zero,
    which only a caller can pass in, is not a value of the model. *)
Definition div (a b : double) : double :=
  match a, b with
  | NaN, _ | _, NaN => NaN
  | Fin x, Fin y =>
      if Qeq_bool y 0
      then match sign a with
           | Some sa => inf sa
           | None => NaN
           end
      else Fin (x / y)
  | Fin _, _ => Fin 0
  | _, Fin y => match sign a with
                | Some sa => inf (xorb sa (Qlt_bool y 0))
                | None => NaN
                end
  | _, _ => NaN                           (* infinity over infinity *)
  end.

(** [a < b]; every comparison with NaN is false. *)
Definition lt (a b : double) : bool :=
  match a, b with
  | NaN, _ | _, NaN => false
  | Fin x, Fin y => Qlt_bool x y
  | NInf, NInf => false
  | NInf, _ => true
  | _, PInf => match a with PInf => false | _ => true end
  | _, _ => false
  end.

Definition gt (a b : double) : bool := lt b a.

(** The integer part of a rational, truncated toward zero. *)
Definition trunc (q : Q) : Z := Z.quot (Qnum q) (Zpos (Qden q)).

(** [int(x)]: defined only when the truncated value fits an [int]; for
    infinities, NaN and values out of range C++ leaves the conversion
    undefined. *)
Definition to_int (a : double) : option Z :=
  match a with
  | Fin q => if Int32.in_range (trunc q) then Some (trunc q) else None
  | _ => None
  end.

(** The [constrain] macro at floating-point type. *)
Definition constrain (amt low high : double) : double :=
  if lt amt low then low else if gt amt high then high else amt.

End Fp.

(** ** Arduino macros *)

(** [Arduino.h] is a dependency, not part of the repository; its macros are
    [constrain(amt,low,high) ((amt)<(low)?(low):((amt)>(high)?(high):(amt)))],
    [max(a,b) ((a)>(b)?(a):(b))] and [sq(x) ((x)*(x))]. *)
Module Arduino.

Definition constrain (amt low high : Z) : Z :=
  if amt <? low then low else if amt >? high then high else amt.

Definition max (a b : Z) : Z := if a >? b then a else b.

Definition sq (x : Z) : Z := Int32.mul x x.

End Arduino.

(** ** Data model *)

(** Modelled from the spec: [StrokeEngine.h] is absent.  The spec's data
    model gives [MachineGeometry] the fields [physicalTravel] and
    [keepoutBoundary] (millimetres), [MotorProperties] the fields below, and
    [EngineState] the four states.  The spec derives the limits by rounding
    real-valued products ([round(maxRPM x stepsPerRevolution / 60)] and the
    like), so the motor's rates and scales are floating point, as the
    millimetre quantities are; pins are [int]. *)
Record machineGeometry : Type := {
  physicalTravel : Fp.double;
  keepoutBoundary : Fp.double
}.

Record motorProperties : Type := {
  stepsPerRevolution : Fp.double;
  maxRPM : Fp.double;
  maxAcceleration : Fp.double;
  stepsPerMillimeter : Fp.double;
  enableActiveLow : bool;
  stepPin : Z;
  directionPin : Z;
  enablePin : Z
}.

Inductive ServoState : Type :=
| SERVO_DISABLED
| SERVO_READY
| SERVO_ERROR
| SERVO_RUNNING.

Definition ServoState_eqb (a b : ServoState) : bool :=
  match a, b with
  | SERVO_DISABLED, SERVO_DISABLED
  | SERVO_READY, SERVO_READY
  | SERVO_ERROR, SERVO_ERROR
  | SERVO_RUNNING, SERVO_RUNNING => true
  | _, _ => false
  end.

(** Modelled from the spec: [pattern.h] is absent.  A [MotionParameter] is a
    target position (steps), a speed (steps/s) and an acceleration
    (steps/s^2). *)
Record motionParameter : Type := {
  position : Z;
  speed : Z;
  acceleration : Z
}.

Definition with_acceleration (a : Z) (m : motionParameter) : motionParameter :=
  {| position := position m; speed := speed m; acceleration := a |}.

(** Modelled from the spec: [pattern.h] is absent.  A pattern object of the
    Pattern Provider keeps its own copy of the four motion parameters, set
    through [setTimeOfStroke], [setDepth], [setStroke] and [setSensation],
    and has a name. *)
Module Pattern.

Record t : Type := {
  _name : string;
  _timeOfStroke : Fp.double;
  _depth : Z;
  _stroke : Z;
  _sensation : Fp.double
}.

Definition setTimeOfStroke (v : Fp.double) (p : t) : t :=
  {| _name := _name p; _timeOfStroke := v; _depth := _depth p;
     _stroke := _stroke p; _sensation := _sensation p |}.

Definition setDepth (v : Z) (p : t) : t :=
  {| _name := _name p; _timeOfStroke := _timeOfStroke p; _depth := v;
     _stroke := _stroke p; _sensation := _sensation p |}.

Definition setStroke (v : Z) (p : t) : t :=
  {| _name := _name p; _timeOfStroke := _timeOfStroke p; _depth := _depth p;
     _stroke := v; _sensation := _sensation p |}.

Definition setSensation (v : Fp.double) (p : t) : t :=
  {| _name := _name p; _timeOfStroke := _timeOfStroke p; _depth := _depth p;
     _stroke := _stroke p; _sensation := v |}.

End Pattern.

(** The calls the engine makes on the driver, in the order of the driver's
    interface as the source uses it. *)
Inductive servo_call : Type :=
| setDirectionPin (pin : Z) (dirHighCountsUp : Z)
| setEnablePin (pin : Z) (activeLow : bool)
| setAutoEnable (on : bool)
| disableOutputs
| enableOutputs
| setSpeedInHz (hz : Z)
| setAcceleration (a : Z)
| applySpeedAcceleration
| stopMove
| moveTo (target : Z)
| move (delta : Z)
| forceStopAndNewPosition (pos : Z)
| setCurrentPosition (pos : Z).

(** The driver as the engine sees it: what it reports when asked, and the
    calls received so far (oldest first).  How a move makes the readings
    evolve is the driver's business; the two calls that assign the position
    are the only ones whose effect on a reading is modelled. *)
Record FastAccelStepper : Type := {
  isRunning : bool;
  getCurrentPosition : Z;
  getCurrentSpeedInUs : Z;
  calls : list servo_call
}.

Definition received (c : servo_call) (sv : FastAccelStepper) : FastAccelStepper :=
  {| isRunning := isRunning sv;
     getCurrentPosition :=
       match c with
       | forceStopAndNewPosition p | setCurrentPosition p => p
       | _ => getCurrentPosition sv
       end;
     getCurrentSpeedInUs := getCurrentSpeedInUs sv;
     calls := calls sv ++ [c] |}.

(** The fields of the [StrokeEngine] object. *)
Record StrokeEngine : Type := {
  _physics : machineGeometry;
  _motor : motorProperties;
  _travel : Fp.double;
  _minStep : Z;
  _maxStep : Z;
  _maxStepPerSecond : Z;
  _maxStepAcceleration : Z;
  _state : ServoState;
  _isHomed : bool;
  _patternIndex : Z;
  _index : Z;
  _depth : Z;
  _stroke : Z;
  _timeOfStroke : Fp.double;
  _sensation : Fp.double;
  _homeingPin : Z;
  _homeingActiveLow : Z;
  _homeingSpeed : Z;
  _callBackHomeing : bool;          (* a callback is registered *)
  _taskStrokingHandle : bool;       (* the handle is not NULL *)
  _taskHomingHandle : bool
}.

(** The object together with the process-wide state its methods touch. *)
Record world : Type := {
  this : StrokeEngine;
  patternTable : list Pattern.t;
  servo : option FastAccelStepper;  (* [None] is the null pointer *)
  inputPins : list Z;               (* pins configured by pinMode(_, INPUT) *)
  homingCallbacks : list bool       (* arguments the callback was called with *)
}.

(** *** Field updates *)

Definition set_limits (travel : Fp.double) (lo hi sps acc : Z) (e : StrokeEngine) : StrokeEngine :=
  {| _physics := _physics e; _motor := _motor e; _travel := travel;
     _minStep := lo; _maxStep := hi; _maxStepPerSecond := sps;
     _maxStepAcceleration := acc; _state := _state e; _isHomed := _isHomed e;
     _patternIndex := _patternIndex e; _index := _index e; _depth := _depth e;
     _stroke := _stroke e; _timeOfStroke := _timeOfStroke e;
     _sensation := _sensation e; _homeingPin := _homeingPin e;
     _homeingActiveLow := _homeingActiveLow e; _homeingSpeed := _homeingSpeed e;
     _callBackHomeing := _callBackHomeing e;
     _taskStrokingHandle := _taskStrokingHandle e;
     _taskHomingHandle := _taskHomingHandle e |}.

Definition set_config (g : machineGeometry) (m : motorProperties) (e : StrokeEngine) : StrokeEngine :=
  {| _physics := g; _motor := m; _travel := _travel e;
     _minStep := _minStep e; _maxStep := _maxStep e;
     _maxStepPerSecond := _maxStepPerSecond e;
     _maxStepAcceleration := _maxStepAcceleration e; _state := _state e;
     _isHomed := _isHomed e;
     _patternIndex := _patternIndex e; _index := _index e; _depth := _depth e;
     _stroke := _stroke e; _timeOfStroke := _timeOfStroke e;
     _sensation := _sensation e; _homeingPin := _homeingPin e;
     _homeingActiveLow := _homeingActiveLow e; _homeingSpeed := _homeingSpeed e;
     _callBackHomeing := _callBackHomeing e;
     _taskStrokingHandle := _taskStrokingHandle e;
     _taskHomingHandle := _taskHomingHandle e |}.

Definition set_state (v : ServoState) (e : StrokeEngine) : StrokeEngine :=
  {| _physics := _physics e; _motor := _motor e; _travel := _travel e;
     _minStep := _minStep e; _maxStep := _maxStep e;
     _maxStepPerSecond := _maxStepPerSecond e;
     _maxStepAcceleration := _maxStepAcceleration e; _state := v;
     _isHomed := _isHomed e;
     _patternIndex := _patternIndex e; _index := _index e; _depth := _depth e;
     _stroke := _stroke e; _timeOfStroke := _timeOfStroke e;
     _sensation := _sensation e; _homeingPin := _homeingPin e;
     _homeingActiveLow := _homeingActiveLow e; _homeingSpeed := _homeingSpeed e;
     _callBackHomeing := _callBackHomeing e;
     _taskStrokingHandle := _taskStrokingHandle e;
     _taskHomingHandle := _taskHomingHandle e |}.

Definition set_isHomed (v : bool) (e : StrokeEngine) : StrokeEngine :=
  {| _physics := _physics e; _motor := _motor e; _travel := _travel e;
     _minStep := _minStep e; _maxStep := _maxStep e;
     _maxStepPerSecond := _maxStepPerSecond e;
     _maxStepAcceleration := _maxStepAcceleration e; _state := _state e;
     _isHomed := v;
     _patternIndex := _patternIndex e; _index := _index e; _depth := _depth e;
     _stroke := _stroke e; _timeOfStroke := _timeOfStroke e;
     _sensation := _sensation e; _homeingPin := _homeingPin e;
     _homeingActiveLow := _homeingActiveLow e; _homeingSpeed := _homeingSpeed e;
     _callBackHomeing := _callBackHomeing e;
     _taskStrokingHandle := _taskStrokingHandle e;
     _taskHomingHandle := _taskHomingHandle e |}.

Definition set_patternIndex (v : Z) (e : StrokeEngine) : StrokeEngine :=
  {| _physics := _physics e; _motor := _motor e; _travel := _travel e;
     _minStep := _minStep e; _maxStep := _maxStep e;
     _maxStepPerSecond := _maxStepPerSecond e;
     _maxStepAcceleration := _maxStepAcceleration e; _state := _state e;
     _isHomed := _isHomed e;
     _patternIndex := v; _index := _index e; _depth := _depth e;
     _stroke := _stroke e; _timeOfStroke := _timeOfStroke e;
     _sensation := _sensation e; _homeingPin := _homeingPin e;
     _homeingActiveLow := _homeingActiveLow e; _homeingSpeed := _homeingSpeed e;
     _callBackHomeing := _callBackHomeing e;
     _taskStrokingHandle := _taskStrokingHandle e;
     _taskHomingHandle := _taskHomingHandle e |}.

Definition set_index (v : Z) (e : StrokeEngine) : StrokeEngine :=
  {| _physics := _physics e; _motor := _motor e; _travel := _travel e;
     _minStep := _minStep e; _maxStep := _maxStep e;
     _maxStepPerSecond := _maxStepPerSecond e;
     _maxStepAcceleration := _maxStepAcceleration e; _state := _state e;
     _isHomed := _isHomed e;
     _patternIndex := _patternIndex e; _index := v; _depth := _depth e;
     _stroke := _stroke e; _timeOfStroke := _timeOfStroke e;
     _sensation := _sensation e; _homeingPin := _homeingPin e;
     _homeingActiveLow := _homeingActiveLow e; _homeingSpeed := _homeingSpeed e;
     _callBackHomeing := _callBackHomeing e;
     _taskStrokingHandle := _taskStrokingHandle e;
     _taskHomingHandle := _taskHomingHandle e |}.

Definition set_depth (v : Z) (e : StrokeEngine) : StrokeEngine :=
  {| _physics := _physics e; _motor := _motor e; _travel := _travel e;
     _minStep := _minStep e; _maxStep := _maxStep e;
     _maxStepPerSecond := _maxStepPerSecond e;
     _maxStepAcceleration := _maxStepAcceleration e; _state := _state e;
     _isHomed := _isHomed e;
     _patternIndex := _patternIndex e; _index := _index e; _depth := v;
     _stroke := _stroke e; _timeOfStroke := _timeOfStroke e;
     _sensation := _sensation e; _homeingPin := _homeingPin e;
     _homeingActiveLow := _homeingActiveLow e; _homeingSpeed := _homeingSpeed e;
     _callBackHomeing := _callBackHomeing e;
     _taskStrokingHandle := _taskStrokingHandle e;
     _taskHomingHandle := _taskHomingHandle e |}.

Definition set_stroke (v : Z) (e : StrokeEngine) : StrokeEngine :=
  {| _physics := _physics e; _motor := _motor e; _travel := _travel e;
     _minStep := _minStep e; _maxStep := _maxStep e;
     _maxStepPerSecond := _maxStepPerSecond e;
     _maxStepAcceleration := _maxStepAcceleration e; _state := _state e;
     _isHomed := _isHomed e;
     _patternIndex := _patternIndex e; _index := _index e; _depth := _depth e;
     _stroke := v; _timeOfStroke := _timeOfStroke e;
     _sensation := _sensation e; _homeingPin := _homeingPin e;
     _homeingActiveLow := _homeingActiveLow e; _homeingSpeed := _homeingSpeed e;
     _callBackHomeing := _callBackHomeing e;
     _taskStrokingHandle := _taskStrokingHandle e;
     _taskHomingHandle := _taskHomingHandle e |}.

Definition set_timeOfStroke (v : Fp.double) (e : StrokeEngine) : StrokeEngine :=
  {| _physics := _physics e; _motor := _motor e; _travel := _travel e;
     _minStep := _minStep e; _maxStep := _maxStep e;
     _maxStepPerSecond := _maxStepPerSecond e;
     _maxStepAcceleration := _maxStepAcceleration e; _state := _state e;
     _isHomed := _isHomed e;
     _patternIndex := _patternIndex e; _index := _index e; _depth := _depth e;
     _stroke := _stroke e; _timeOfStroke := v;
     _sensation := _sensation e; _homeingPin := _homeingPin e;
     _homeingActiveLow := _homeingActiveLow e; _homeingSpeed := _homeingSpeed e;
     _callBackHomeing := _callBackHomeing e;
     _taskStrokingHandle := _taskStrokingHandle e;
     _taskHomingHandle := _taskHomingHandle e |}.

Definition set_sensation (v : Fp.double) (e : StrokeEngine) : StrokeEngine :=
  {| _physics := _physics e; _motor := _motor e; _travel := _travel e;
     _minStep := _minStep e; _maxStep := _maxStep e;
     _maxStepPerSecond := _maxStepPerSecond e;
     _maxStepAcceleration := _maxStepAcceleration e; _state := _state e;
     _isHomed := _isHomed e;
     _patternIndex := _patternIndex e; _index := _index e; _depth := _depth e;
     _stroke := _stroke e; _timeOfStroke := _timeOfStroke e;
     _sensation := v; _homeingPin := _homeingPin e;
     _homeingActiveLow := _homeingActiveLow e; _homeingSpeed := _homeingSpeed e;
     _callBackHomeing := _callBackHomeing e;
     _taskStrokingHandle := _taskStrokingHandle e;
     _taskHomingHandle := _taskHomingHandle e |}.

Definition set_homeing (pin activeLow hz : Z) (e : StrokeEngine) : StrokeEngine :=
  {| _physics := _physics e; _motor := _motor e; _travel := _travel e;
     _minStep := _minStep e; _maxStep := _maxStep e;
     _maxStepPerSecond := _maxStepPerSecond e;
     _maxStepAcceleration := _maxStepAcceleration e; _state := _state e;
     _isHomed := _isHomed e;
     _patternIndex := _patternIndex e; _index := _index e; _depth := _depth e;
     _stroke := _stroke e; _timeOfStroke := _timeOfStroke e;
     _sensation := _sensation e; _homeingPin := pin;
     _homeingActiveLow := activeLow; _homeingSpeed := hz;
     _callBackHomeing := _callBackHomeing e;
     _taskStrokingHandle := _taskStrokingHandle e;
     _taskHomingHandle := _taskHomingHandle e |}.

Definition set_callBackHomeing (v : bool) (e : StrokeEngine) : StrokeEngine :=
  {| _physics := _physics e; _motor := _motor e; _travel := _travel e;
     _minStep := _minStep e; _maxStep := _maxStep e;
     _maxStepPerSecond := _maxStepPerSecond e;
     _maxStepAcceleration := _maxStepAcceleration e; _state := _state e;
     _isHomed := _isHomed e;
     _patternIndex := _patternIndex e; _index := _index e; _depth := _depth e;
     _stroke := _stroke e; _timeOfStroke := _timeOfStroke e;
     _sensation := _sensation e; _homeingPin := _homeingPin e;
     _homeingActiveLow := _homeingActiveLow e; _homeingSpeed := _homeingSpeed e;
     _callBackHomeing := v;
     _taskStrokingHandle := _taskStrokingHandle e;
     _taskHomingHandle := _taskHomingHandle e |}.

Definition set_taskStrokingHandle (v : bool) (e : StrokeEngine) : StrokeEngine :=
  {| _physics := _physics e; _motor := _motor e; _travel := _travel e;
     _minStep := _minStep e; _maxStep := _maxStep e;
     _maxStepPerSecond := _maxStepPerSecond e;
     _maxStepAcceleration := _maxStepAcceleration e; _state := _state e;
     _isHomed := _isHomed e;
     _patternIndex := _patternIndex e; _index := _index e; _depth := _depth e;
     _stroke := _stroke e; _timeOfStroke := _timeOfStroke e;
     _sensation := _sensation e; _homeingPin := _homeingPin e;
     _homeingActiveLow := _homeingActiveLow e; _homeingSpeed := _homeingSpeed e;
     _callBackHomeing := _callBackHomeing e;
     _taskStrokingHandle := v;
     _taskHomingHandle := _taskHomingHandle e |}.

Definition set_taskHomingHandle (v : bool) (e : StrokeEngine) : StrokeEngine :=
  {| _physics := _physics e; _motor := _motor e; _travel := _travel e;
     _minStep := _minStep e; _maxStep := _maxStep e;
     _maxStepPerSecond := _maxStepPerSecond e;
     _maxStepAcceleration := _maxStepAcceleration e; _state := _state e;
     _isHomed := _isHomed e;
     _patternIndex := _patternIndex e; _index := _index e; _depth := _depth e;
     _stroke := _stroke e; _timeOfStroke := _timeOfStroke e;
     _sensation := _sensation e; _homeingPin := _homeingPin e;
     _homeingActiveLow := _homeingActiveLow e; _homeingSpeed := _homeingSpeed e;
     _callBackHomeing := _callBackHomeing e;
     _taskStrokingHandle := _taskStrokingHandle e;
     _taskHomingHandle := v |}.

Definition set_this (e : StrokeEngine) (w : world) : world :=
  {| this := e; patternTable := patternTable w; servo := servo w;
     inputPins := inputPins w; homingCallbacks := homingCallbacks w |}.

Definition set_patternTable (t : list Pattern.t) (w : world) : world :=
  {| this := this w; patternTable := t; servo := servo w;
     inputPins := inputPins w; homingCallbacks := homingCallbacks w |}.

Definition set_servo (s : option FastAccelStepper) (w : world) : world :=
  {| this := this w; patternTable := patternTable w; servo := s;
     inputPins := inputPins w; homingCallbacks := homingCallbacks w |}.

Definition set_inputPins (l : list Z) (w : world) : world :=
  {| this := this w; patternTable := patternTable w; servo := servo w;
     inputPins := l; homingCallbacks := homingCallbacks w |}.

Definition set_homingCallbacks (l : list bool) (w : world) : world :=
  {| this := this w; patternTable := patternTable w; servo := servo w;
     inputPins := inputPins w; homingCallbacks := l |}.

(** ** Computations *)

(** A method is a function of the world that either has no defined result
    or returns a value and the world it leaves. *)
Definition M (A : Type) : Type := world -> option (A * world).

Definition ret {A : Type} (a : A) : M A := fun w => Some (a, w).

Definition bind {A B : Type} (c : M A) (k : A -> M B) : M B :=
  fun w => match c w with
           | Some (a, w') => k a w'
           | None => None
           end.

Notation "x <- c1 ;; c2" := (bind c1 (fun x => c2))
  (at level 100, c1 at next level, right associativity).
Notation "c1 ;; c2" := (bind c1 (fun _ => c2))
  (at level 100, right associativity).

Definition lift {A : Type} (o : option A) : M A :=
  fun w => match o with
           | Some a => Some (a, w)
           | None => None
           end.

Definition self : M StrokeEngine := fun w => Some (this w, w).

Definition update (f : StrokeEngine -> StrokeEngine) : M unit :=
  fun w => Some (tt, set_this (f (this w)) w).

(** [patternTable[i]]: an index outside the array has no defined result. *)
Definition pattern_at (i : Z) : M Pattern.t :=
  fun w => if i <? 0 then None
           else match patternTable w !! Z.to_nat i with
                | Some p => Some (p, w)
                | None => None
                end.

(** [patternTable[i]->set...(v)]. *)
Definition on_pattern (i : Z) (f : Pattern.t -> Pattern.t) : M unit :=
  p <- pattern_at i ;;
  fun w => Some (tt, set_patternTable (<[Z.to_nat i := f p]> (patternTable w)) w).

(** Modelled from the spec: [pattern.h] is absent.  [patternTableSize] is
    the spec's [patternCount], the number of entries of the pattern table.
    The spec has [setPattern] refuse every index outside [0, patternCount)
    with the one comparison the source makes, which is the case for an
    unsigned count: the [int] index is converted to unsigned before it is
    compared. *)
Definition patternTableSize (w : world) : Z := Z.of_nat (length (patternTable w)).

(** [servo->call(...)]: undefined through the null pointer. *)
Definition servo_do (c : servo_call) : M unit :=
  fun w => match servo w with
           | Some sv => Some (tt, set_servo (Some (received c sv)) w)
           | None => None
           end.

Definition servo_get {A : Type} (reading : FastAccelStepper -> A) : M A :=
  fun w => match servo w with
           | Some sv => Some (reading sv, w)
           | None => None
           end.

Definition pinMode_INPUT (pin : Z) : M unit :=
  fun w => Some (tt, set_inputPins (inputPins w ++ [pin]) w).

Definition call_back (homed : bool) : M unit :=
  fun w => Some (tt, set_homingCallbacks (homingCallbacks w ++ [homed]) w).

(** ** Crash-avoidance arithmetic of [_stroking] *)

(** [int((1000000.0/servo->getCurrentSpeedInUs()) + 0.5)] *)
Definition currentSpeed_of (speedInUs : Z) : option Z :=
  Fp.to_int (Fp.add (Fp.div (Fp.Fin 1000000) (Fp.of_int speedInUs)) (Fp.Fin (1 # 2))).

(** The distance to the boundary in the direction of motion. *)
Definition distanceToCrash_of (e : StrokeEngine) (currentSpeed pos : Z) : Z :=
  if currentSpeed >? 0
  then Int32.sub (_maxStep e) pos
  else Int32.sub pos (_minStep e).

(** The divisor [2.0 * distanceToCrash]. *)
Definition crash_divisor (distanceToCrash : Z) : Fp.double :=
  Fp.mul (Fp.Fin 2) (Fp.of_int distanceToCrash).

(** [int(sq(currentSpeed) / (2.0 * distanceToCrash) + 0.5)] *)
Definition minimumDeceleration_of (currentSpeed distanceToCrash : Z) : option Z :=
  Fp.to_int
    (Fp.add (Fp.div (Fp.of_int (Arduino.sq currentSpeed)) (crash_divisor distanceToCrash))
            (Fp.Fin (1 # 2))).

(** What finishes a cycle of the stroking task. *)
Inductive task_status : Type :=
| TaskDeleted          (* vTaskDelete(NULL) *)
| TaskDelayed.         (* vTaskDelay(10 / portTICK_PERIOD_MS) *)

Section Engine.

(** Modelled from the spec: [pattern.h] is absent.  The Pattern Provider
    answers [nextTarget(index)] with a [MotionParameter] computed from the
    pattern's parameters and the step index. *)
Variable nextTarget : Pattern.t -> Z -> motionParameter.

(** The pin the homing procedure reads, a macro of the absent
    configuration header. *)
Variable SERVO_ENDSTOP : Z.

Definition _applyMotionProfile (motion : motionParameter) : M unit :=
  e <- self ;;
  servo_do (setSpeedInHz (Arduino.constrain (speed motion) 1 (_maxStepPerSecond e))) ;;
  servo_do (setAcceleration (Arduino.constrain (acceleration motion) 1 (_maxStepAcceleration e))) ;;
  servo_do (moveTo (Arduino.constrain (position motion) (_minStep e) (_maxStep e))).

(** [begin]; [connected] is what [engine.stepperConnectToPin] returns.  The
    source reads the step scale once as [_motor->stepPerMillimeter] and
    everywhere else as [_motor->stepsPerMillimeter]; both are the one field
    of the spec's [MotorProperties]. *)
Definition begin (physics : machineGeometry) (motor : motorProperties)
    (connected : option FastAccelStepper) : M unit :=
  update (set_config physics motor) ;;
  e <- self ;;
  let travel := Fp.sub (physicalTravel (_physics e))
                       (Fp.mul (Fp.of_int 2) (keepoutBoundary (_physics e))) in
  maxStep <- lift (Fp.to_int (Fp.add (Fp.Fin (1 # 2))
                     (Fp.mul travel (stepsPerMillimeter (_motor e))))) ;;
  maxStepPerSecond <- lift (Fp.to_int (Fp.add (Fp.Fin (1 # 2))
                     (Fp.div (Fp.mul (maxRPM (_motor e)) (stepsPerRevolution (_motor e)))
                             (Fp.of_int 60)))) ;;
  maxStepAcceleration <- lift (Fp.to_int (Fp.add (Fp.Fin (1 # 2))
                     (Fp.mul (maxAcceleration (_motor e))
                             (stepsPerRevolution (_motor e))))) ;;
  update (set_limits travel 0 maxStep maxStepPerSecond maxStepAcceleration) ;;
  update (set_state SERVO_DISABLED) ;;
  update (set_isHomed false) ;;
  update (set_patternIndex 0) ;;
  update (set_index 0) ;;
  update (fun e => set_depth (_maxStep e) e) ;;
  update (fun e => set_stroke (Int32.mul (Int32.div 1 3) (_maxStep e)) e) ;;
  update (set_timeOfStroke (Fp.Fin 1)) ;;
  update (set_sensation (Fp.Fin 0)) ;;
  (fun w => Some (tt, set_servo connected w)) ;;
  match connected with
  | Some _ =>
      e <- self ;;
      servo_do (setDirectionPin (directionPin (_motor e)) (directionPin (_motor e))) ;;
      servo_do (setEnablePin (enablePin (_motor e)) (enableActiveLow (_motor e))) ;;
      servo_do (setAutoEnable false) ;;
      servo_do disableOutputs
  | None => ret tt
  end.

Definition setSpeed (speed : Fp.double) : M unit :=
  update (set_timeOfStroke (Fp.div (Fp.Fin 60) speed)) ;;
  update (fun e => set_timeOfStroke
                     (Fp.constrain (_timeOfStroke e) (Fp.Fin (1 # 100)) (Fp.Fin 120)) e) ;;
  e <- self ;;
  on_pattern (_patternIndex e) (Pattern.setTimeOfStroke (_timeOfStroke e)).

Definition setDepth (depth : Fp.double) : M unit :=
  e <- self ;;
  steps <- lift (Fp.to_int (Fp.mul depth (stepsPerMillimeter (_motor e)))) ;;
  update (set_depth steps) ;;
  update (fun e => set_depth (Arduino.constrain (_depth e) (_minStep e) (_maxStep e)) e) ;;
  e <- self ;;
  on_pattern (_patternIndex e) (Pattern.setDepth (_depth e)).

Definition setStroke (stroke : Fp.double) : M unit :=
  e <- self ;;
  steps <- lift (Fp.to_int (Fp.mul stroke (stepsPerMillimeter (_motor e)))) ;;
  update (set_stroke steps) ;;
  update (fun e => set_stroke (Arduino.constrain (_stroke e) (_minStep e) (_maxStep e)) e) ;;
  e <- self ;;
  on_pattern (_patternIndex e) (Pattern.setStroke (_stroke e)).

Definition setSensation (sensation : Fp.double) : M unit :=
  update (set_sensation (Fp.constrain sensation (Fp.Fin (-100)) (Fp.Fin 100))) ;;
  e <- self ;;
  on_pattern (_patternIndex e) (Pattern.setSensation (_sensation e)).

(** The four [patternTable[_patternIndex]->set...] calls shared by
    [setPattern] and [startMotion]. *)
Definition inject_parameters : M unit :=
  e <- self ;;
  on_pattern (_patternIndex e) (Pattern.setTimeOfStroke (_timeOfStroke e)) ;;
  on_pattern (_patternIndex e) (Pattern.setDepth (_depth e)) ;;
  on_pattern (_patternIndex e) (Pattern.setStroke (_stroke e)) ;;
  on_pattern (_patternIndex e) (Pattern.setSensation (_sensation e)).

Definition setPattern (patternIndex : Z) : M bool :=
  fun w =>
    if Int32.to_unsigned patternIndex <? patternTableSize w
    then (update (set_patternIndex patternIndex) ;;
          inject_parameters ;;
          update (set_index 0) ;;
          ret true) w
    else ret false w.

Definition applyNewSettingsNow : M bool :=
  e <- self ;;
  if ServoState_eqb (_state e) SERVO_RUNNING
  then p <- pattern_at (_patternIndex e) ;;
       _applyMotionProfile (nextTarget p (_index e)) ;;
       ret true
  else ret false.

(** Stop the servo as fast as legally allowed. *)
Definition stop_servo : M unit :=
  e <- self ;;
  servo_do (setAcceleration (_maxStepAcceleration e)) ;;
  servo_do applySpeedAcceleration ;;
  servo_do stopMove.

Definition startMotion : M bool :=
  e <- self ;;
  if negb (ServoState_eqb (_state e) SERVO_READY)
  then ret false
  else
    running <- servo_get isRunning ;;
    (if running : bool then stop_servo else ret tt) ;;
    update (set_state SERVO_RUNNING) ;;
    update (set_index (-1)) ;;
    inject_parameters ;;
    update (set_taskStrokingHandle true) ;;       (* xTaskCreate(_strokingImpl) *)
    ret true.

Definition stopMotion : M unit :=
  e <- self ;;
  if ServoState_eqb (_state e) SERVO_RUNNING
  then stop_servo ;; update (set_state SERVO_READY)
  else ret tt.

Definition enableAndHome (pin activeLow : Z) (speed : Fp.double) : M unit :=
  e <- self ;;
  hz <- lift (Fp.to_int (Fp.mul speed (stepsPerMillimeter (_motor e)))) ;;
  update (set_homeing pin activeLow hz) ;;
  pinMode_INPUT pin ;;
  stopMotion ;;
  servo_do enableOutputs ;;
  update (set_taskHomingHandle true).              (* xTaskCreate(_homingProcedureImpl) *)

(** The overload that stores a callback first; [callBackHoming] tells
    whether the pointer passed is not NULL. *)
Definition enableAndHome_callback (pin activeLow : Z) (callBackHoming : bool)
    (speed : Fp.double) : M unit :=
  update (set_callBackHomeing callBackHoming) ;;
  enableAndHome pin activeLow speed.

Definition thisIsHome : M unit :=
  e <- self ;;
  if negb (ServoState_eqb (_state e) SERVO_ERROR)
  then servo_do enableOutputs ;;
       home <- lift (Fp.to_int (Fp.mul (Fp.neg (stepsPerMillimeter (_motor e)))
                                       (keepoutBoundary (_physics e)))) ;;
       servo_do (setCurrentPosition home) ;;
       update (set_isHomed true) ;;
       update (set_state SERVO_READY)
  else ret tt.

Definition moveToMax (speed : Fp.double) : M bool :=
  e <- self ;;
  if _isHomed e
  then stopMotion ;;
       hz <- lift (Fp.to_int (Fp.mul speed (stepsPerMillimeter (_motor e)))) ;;
       _applyMotionProfile {| position := _maxStep e; speed := hz;
                              acceleration := Int32.div (_maxStepAcceleration e) 10 |} ;;
       update (set_state SERVO_READY) ;;
       ret true
  else ret false.

Definition moveToMin (speed : Fp.double) : M bool :=
  e <- self ;;
  if _isHomed e
  then stopMotion ;;
       hz <- lift (Fp.to_int (Fp.mul speed (stepsPerMillimeter (_motor e)))) ;;
       _applyMotionProfile {| position := _minStep e; speed := hz;
                              acceleration := Int32.div (_maxStepAcceleration e) 10 |} ;;
       update (set_state SERVO_READY) ;;
       ret true
  else ret false.

Definition getState : M ServoState :=
  e <- self ;; ret (_state e).

Definition disable : M unit :=
  update (set_state SERVO_DISABLED) ;;
  update (set_isHomed false) ;;
  servo_do disableOutputs ;;
  e <- self ;;
  if _taskHomingHandle e
  then update (set_taskHomingHandle false)         (* vTaskDelete(_taskHomingHandle) *)
  else ret tt.

Definition safeState : M unit :=
  disable ;;
  update (set_state SERVO_ERROR).

(** *** The homing task *)

(** The homing task reads the endstop once at its start and then once per
    20 ms poll for as long as [servo->isRunning()] holds.  The input it
    sees is given as [digitalRead] at the start and the list of
    [digitalRead]s at the successive polls made while the move runs; when
    the list is exhausted the driver reports that it has stopped.
    [digitalRead pin] is [true] for HIGH and [false] for LOW. *)
Fixpoint poll_homing_switch (polls : list (Z -> bool)) : M unit :=
  match polls with
  | [] => ret tt
  | digitalRead :: later =>
      if negb (digitalRead SERVO_ENDSTOP)            (* == LOW *)
      then
        e <- self ;;
        switch_at <- lift (Fp.to_int (Fp.mul (Fp.neg (stepsPerMillimeter (_motor e)))
                                             (keepoutBoundary (_physics e)))) ;;
        servo_do (forceStopAndNewPosition switch_at) ;;
        update (set_isHomed true) ;;
        servo_do (moveTo 0)
      else poll_homing_switch later                  (* vTaskDelay(20 ms) *)
  end.

Definition _homingProcedure (digitalRead : Z -> bool) (polls : list (Z -> bool)) : M unit :=
  e <- self ;;
  let spm := stepsPerMillimeter (_motor e) in
  let keepout := keepoutBoundary (_physics e) in
  servo_do (setSpeedInHz (_homeingSpeed e)) ;;
  servo_do (setAcceleration (Int32.div (_maxStepAcceleration e) 10)) ;;
  (if Bool.eqb (digitalRead SERVO_ENDSTOP) (_homeingActiveLow e =? 0)   (* == !_homeingActiveLow *)
   then
     back_off <- lift (Fp.to_int (Fp.mul (Fp.mul spm (Fp.of_int 2)) keepout)) ;;
     servo_do (move back_off) ;;
     (* the task sleeps in 100 ms steps until the move is complete *)
     approach <- lift (Fp.to_int (Fp.mul (Fp.mul (Fp.neg spm) (Fp.of_int 4)) keepout)) ;;
     servo_do (move approach)
   else
     travel <- lift (Fp.to_int (Fp.mul (Fp.neg spm) (physicalTravel (_physics e)))) ;;
     servo_do (move travel)) ;;
  poll_homing_switch polls ;;
  e <- self ;;
  (if negb (_isHomed e)
   then servo_do disableOutputs ;; update (set_state SERVO_DISABLED)
   else update (set_state SERVO_READY)) ;;
  e <- self ;;
  (if _callBackHomeing e then call_back (_isHomed e) else ret tt) ;;
  update (set_taskHomingHandle false).

(** *** The stroking task *)

(** [_index++] followed by [patternTable[_patternIndex]->nextTarget(_index)]. *)
Definition next_motion : M motionParameter :=
  update (fun e => set_index (Int32.add (_index e) 1) e) ;;
  e <- self ;;
  p <- pattern_at (_patternIndex e) ;;
  ret (nextTarget p (_index e)).

(** The crash-avoidance override of the requested acceleration. *)
Definition avoid_crash (currentMotion : motionParameter) : M motionParameter :=
  e <- self ;;
  speedInUs <- servo_get getCurrentSpeedInUs ;;
  currentSpeed <- lift (currentSpeed_of speedInUs) ;;
  pos <- servo_get getCurrentPosition ;;
  let distanceToCrash := distanceToCrash_of e currentSpeed pos in
  minimumDeceleration <- lift (minimumDeceleration_of currentSpeed distanceToCrash) ;;
  ret (with_acceleration (Arduino.max (acceleration currentMotion) minimumDeceleration)
                         currentMotion).

(** One iteration of the [while(1)] loop of [_stroking]. *)
Definition _stroking_cycle : M task_status :=
  e <- self ;;
  if negb (ServoState_eqb (_state e) SERVO_RUNNING)
  then update (set_taskStrokingHandle false) ;; ret TaskDeleted
  else
    running <- servo_get isRunning ;;
    if negb running
    then
      currentMotion <- next_motion ;;
      currentMotion <- avoid_crash currentMotion ;;
      _applyMotionProfile currentMotion ;;
      ret TaskDelayed
    else ret TaskDelayed.

End Engine.

(** ** The pattern listing *)

(** The double-quote character. *)
Definition quote : string := String (Ascii.ascii_of_nat 34) EmptyString.

(** [String(i, DEC)]: the decimal digits of an unsigned index. *)
Definition String_DEC (i : nat) : string := NilEmpty.string_of_uint (Nat.to_uint i).

(** The body of the [for] loop of [getPatternJSON], run from index [i] over
    the patterns from [patternTable[i]] on; [size] is [patternTableSize]. *)
Fixpoint getPatternJSON_from (i size : nat) (patterns : list Pattern.t)
    (JSON : string) : string :=
  match patterns with
  | [] => JSON
  | p :: later =>
      let JSON := (JSON ++ Pattern._name p)%string in
      let JSON := (JSON ++ (quote ++ ": "))%string in
      let JSON := (JSON ++ String_DEC i)%string in
      let JSON := if (i <? size - 1)%nat
                  then (JSON ++ ("},{" ++ quote))%string
                  else (JSON ++ "}]")%string in
      getPatternJSON_from (S i) size later JSON
  end.

Definition getPatternJSON (w : world) : string :=
  getPatternJSON_from 0 (length (patternTable w)) (patternTable w) ("[{" ++ quote)%string.

(** ** Sample values used to run the model *)

Module Sample.

Definition geometry : machineGeometry :=
  {| physicalTravel := Fp.Fin 160; keepoutBoundary := Fp.Fin 5 |}.

Definition motor : motorProperties :=
  {| stepsPerRevolution := Fp.Fin 800; maxRPM := Fp.Fin 3000;
     maxAcceleration := Fp.Fin 300;
     stepsPerMillimeter := Fp.Fin 50; enableActiveLow := true;
     stepPin := 14; directionPin := 27; enablePin := 26 |}.

Definition pattern (name : string) : Pattern.t :=
  {| Pattern._name := name; Pattern._timeOfStroke := Fp.Fin 0;
     Pattern._depth := 0; Pattern._stroke := 0; Pattern._sensation := Fp.Fin 0 |}.

Definition table : list Pattern.t :=
  [pattern "Simple Stroke"; pattern "Teasing or Pounding"; pattern "Robo Stroke"].

Definition stepper : FastAccelStepper :=
  {| isRunning := false; getCurrentPosition := 0; getCurrentSpeedInUs := 0;
     calls := [] |}.


(** A pattern whose target position is the step index it is asked for. *)
Definition index_target : Pattern.t -> Z -> motionParameter :=
  fun p i => {| position := i; speed := Pattern._stroke p; acceleration := 1000 |}.

(** An object on which [begin] has not run yet. *)
Definition blank : world :=
  {| this := {| _physics := {| physicalTravel := Fp.Fin 0; keepoutBoundary := Fp.Fin 0 |};
                _motor := motor; _travel := Fp.Fin 0; _minStep := 0; _maxStep := 0;
                _maxStepPerSecond := 0; _maxStepAcceleration := 0;
                _state := SERVO_DISABLED; _isHomed := false; _patternIndex := 0;
                _index := 0; _depth := 0; _stroke := 0; _timeOfStroke := Fp.Fin 0;
                _sensation := Fp.Fin 0; _homeingPin := 0; _homeingActiveLow := 0;
                _homeingSpeed := 0; _callBackHomeing := false;
                _taskStrokingHandle := false; _taskHomingHandle := false |};
     patternTable := table; servo := None; inputPins := []; homingCallbacks := [] |}.

(** The world after [begin(geometry, motor)] with the stepper connected. *)
Definition started : world :=
  Eval vm_compute in
    match begin geometry motor (Some stepper) blank with
    | Some (_, w) => w
    | None => blank
    end.

(** The engine running a stroke, the driver idle at [pos] and reporting
    [speedInUs], with [maxAcc] as the acceleration limit. *)
Definition stroking (maxAcc pos speedInUs : Z) : world :=
  set_servo (Some {| isRunning := false; getCurrentPosition := pos;
                     getCurrentSpeedInUs := speedInUs; calls := [] |})
    (set_this (set_state SERVO_RUNNING
                 (set_isHomed true
                    (set_limits (Fp.Fin 150) 0 7500 40000 maxAcc (this started))))
              started).

(** The engine homed and READY. *)
Definition ready : world :=
  set_this (set_state SERVO_READY (set_isHomed true (this started))) started.

(** The world after [enableAndHome(12, 0, 5.0)]: an active-high switch on
    pin 12. *)
Definition homing : world :=
  Eval vm_compute in
    match enableAndHome 12 0 (Fp.Fin 5) started with
    | Some (_, w) => w
    | None => started
    end.

End Sample.

(** ** Vocabulary of the statements *)

(** [y] is [x] clamped to the interval from [lo] to [hi]. *)
Definition clamped (lo hi x y : Z) : Prop :=
  lo <= y <= hi /\
  (lo <= x <= hi -> y = x) /\ (x < lo -> y = lo) /\ (hi < x -> y = hi).

(** The calls a driver has received once a computation has run. *)
Definition calls_after {A : Type} (r : option (A * world)) : list servo_call :=
  match r with
  | Some (_, w) => match servo w with
                   | Some sv => calls sv
                   | None => []
                   end
  | None => []
  end.

(** The world a computation leaves, when it has one. *)
Definition world_after {A : Type} (r : option (A * world)) : option world :=
  match r with
  | Some (_, w) => Some w
  | None => None
  end.


(** The index is one of the pattern table and [p] is the pattern there. *)
Definition selected (w : world) (p : Pattern.t) : Prop :=
  0 <= _patternIndex (this w)
  /\ patternTable w !! Z.to_nat (_patternIndex (this w)) = Some p.

(** The homing switch is active in the sense of the configuration: the
    configured pin reads the configured active level (LOW for an active-low
    switch, HIGH otherwise). *)
Definition switch_active (e : StrokeEngine) (digitalRead : Z -> bool) : bool :=
  Bool.eqb (digitalRead (_homeingPin e)) (_homeingActiveLow e =? 0).

(** A floating-point value is a finite number between [lo] and [hi]. *)
Definition within (lo hi : Q) (x : Fp.double) : Prop :=
  exists q : Q, x = Fp.Fin q /\ (lo <= q)%Q /\ (q <= hi)%Q.

(** The selected pattern holds the engine's four motion parameters. *)
Definition synced (w : world) : Prop :=
  exists p : Pattern.t,
    selected w p
    /\ Pattern._timeOfStroke p = _timeOfStroke (this w)
    /\ Pattern._depth p = _depth (this w)
    /\ Pattern._stroke p = _stroke (this w)
    /\ Pattern._sensation p = _sensation (this w).

(** A pattern after the engine's four parameters have been written into it. *)
Definition injected (e : StrokeEngine) (p : Pattern.t) : Pattern.t :=
  Pattern.setSensation (_sensation e)
    (Pattern.setStroke (_stroke e)
       (Pattern.setDepth (_depth e)
          (Pattern.setTimeOfStroke (_timeOfStroke e) p))).

(** One entry of the pattern listing: the name, a quote, a colon and the
    index. *)
Definition listing_entry (i : nat) (p : Pattern.t) : string :=
  (Pattern._name p ++ (quote ++ ": ") ++ String_DEC i)%string.

(** The entries from index [i] on, each two separated by a closing brace, a
    comma, an opening brace and a quote. *)
Fixpoint listing_entries (i : nat) (patterns : list Pattern.t) : string :=
  match patterns with
  | [] => EmptyString
  | [p] => listing_entry i p
  | p :: later => (listing_entry i p ++ ("},{" ++ quote) ++ listing_entries (S i) later)%string
  end.

(** The calls the homing task makes before it starts polling. *)
Definition homing_moves (at_switch : bool) (back_off approach travel : Z) : list servo_call :=
  if at_switch then [move back_off; move approach] else [move travel].

(** The driver after a list of calls, the first of the list first. *)
Definition issue (cs : list servo_call) (sv : FastAccelStepper) : FastAccelStepper :=
  fold_left (fun s c => received c s) cs sv.

(** The end of the homing task, from the test of [_isHomed] after the
    polling loop on. *)
Definition homing_finish : M unit :=
  e <- self ;;
  (if negb (_isHomed e)
   then servo_do disableOutputs ;; update (set_state SERVO_DISABLED)
   else update (set_state SERVO_READY)) ;;
  e <- self ;;
  (if _callBackHomeing e then call_back (_isHomed e) else ret tt) ;;
  update (set_taskHomingHandle false).




(** * Properties *)

(** ** Arithmetic facts *)

Lemma wrap_id (z : Z) :
  Int32.min_int <= z <= Int32.max_int -> Int32.wrap z = z.
Proof.
  unfold Int32.wrap, Int32.min_int, Int32.max_int. intros H.
  rewrite Z.mod_small by lia. lia.
Qed.

Lemma in_range_true (z : Z) :
  Int32.min_int <= z <= Int32.max_int -> Int32.in_range z = true.
Proof.
  unfold Int32.in_range. intros H.
  apply andb_true_iff. split; apply Z.leb_le; lia.
Qed.

Lemma constrain_clamped (lo hi x : Z) :
  lo <= hi -> clamped lo hi x (Arduino.constrain x lo hi).
Proof.
  intros Hle. unfold clamped, Arduino.constrain.
  destruct (Z.ltb_spec x lo), (Z.gtb_spec x hi); lia.
Qed.



Lemma sq_small (v : Z) : v * v <= Int32.max_int -> Arduino.sq v = v * v.
Proof.
  intros Hv. unfold Arduino.sq, Int32.mul. apply wrap_id.
  unfold Int32.min_int. nia.
Qed.

(** The rounding [int(a / (2.0 * d) + 0.5)] of the source, for a
    non-negative numerator and a positive distance: the quotient rounded to
    the nearest integer, a half rounding up. *)
Lemma trunc_half_up (a : Z) (p : positive) :
  0 <= a ->
  Fp.trunc (inject_Z a / (2 * inject_Z (Z.pos p)) + (1 # 2))
  = (a + Z.pos p) / (2 * Z.pos p).
Proof.
  intros Ha. unfold Fp.trunc, Qdiv, Qmult, Qinv, Qplus, inject_Z. simpl.
  rewrite Z.quot_div_nonneg by nia.
  replace (a * Z.pos (1 * 1) * 2 + 1 * Z.pos (1 * (2 * p)))
    with (2 * (a + Z.pos p)) by lia.
  replace (Z.pos (1 * (2 * p) * 2)) with (2 * (2 * Z.pos p)) by lia.
  apply Z.div_mul_cancel_l; lia.
Qed.

Lemma minimumDeceleration_rounds (v d : Z) :
  0 < d -> v * v <= Int32.max_int ->
  minimumDeceleration_of v d = Some ((v * v + d) / (2 * d)).
Proof.
  intros Hd Hv.
  unfold minimumDeceleration_of, crash_divisor. rewrite (sq_small v Hv).
  destruct d as [|p|p]; try lia.
  cbn -[Z.mul Z.add Z.quot Int32.in_range].
  replace (Qeq_bool (2 * inject_Z (Z.pos p)) 0) with false by reflexivity.
  cbn -[Z.mul Z.add Z.quot Z.div Int32.in_range].
  rewrite trunc_half_up by nia.
  rewrite in_range_true; [reflexivity|].
  unfold Int32.min_int, Int32.max_int in *. split.
  - assert (0 <= (v * v + Z.pos p) / (2 * Z.pos p)) by (apply Z.div_pos; nia). lia.
  - assert ((v * v + Z.pos p) / (2 * Z.pos p) < v * v + 1)
      by (apply Z.div_lt_upper_bound; nia).
    lia.
Qed.

(** ** Running computations *)

Lemma bind_Some {A B : Type} (c : M A) (k : A -> M B) (w w' : world) (a : A) :
  c w = Some (a, w') -> bind c k w = k a w'.
Proof. intros H. unfold bind. rewrite H. reflexivity. Qed.

Lemma bind_None {A B : Type} (c : M A) (k : A -> M B) (w : world) :
  c w = None -> bind c k w = None.
Proof. intros H. unfold bind. rewrite H. reflexivity. Qed.

Lemma servo_do_connected (c : servo_call) (w : world) (sv : FastAccelStepper) :
  servo w = Some sv -> servo_do c w = Some (tt, set_servo (Some (received c sv)) w).
Proof. intros H. unfold servo_do. rewrite H. reflexivity. Qed.

Lemma pattern_at_valid (i : Z) (w : world) (p : Pattern.t) :
  0 <= i -> patternTable w !! Z.to_nat i = Some p -> pattern_at i w = Some (p, w).
Proof.
  intros Hi Hp. unfold pattern_at.
  destruct (Z.ltb_spec i 0); [lia|]. rewrite Hp. reflexivity.
Qed.

Lemma pattern_at_negative (i : Z) (w : world) : i < 0 -> pattern_at i w = None.
Proof. intros Hi. unfold pattern_at. destruct (Z.ltb_spec i 0); [reflexivity|lia]. Qed.

Lemma on_pattern_valid (i : Z) (f : Pattern.t -> Pattern.t) (w : world) (p : Pattern.t) :
  0 <= i -> patternTable w !! Z.to_nat i = Some p ->
  on_pattern i f w
  = Some (tt, set_patternTable (<[Z.to_nat i := f p]> (patternTable w)) w).
Proof.
  intros Hi Hp. unfold on_pattern.
  rewrite (bind_Some _ _ _ _ _ (pattern_at_valid i w p Hi Hp)). reflexivity.
Qed.

(** The motion profile applier on a connected driver: three calls, in the
    order of the source. *)
Lemma applyMotionProfile_connected (motion : motionParameter) (w : world)
    (sv : FastAccelStepper) :
  servo w = Some sv ->
  _applyMotionProfile motion w
  = Some (tt, set_servo
                (Some (received (moveTo (Arduino.constrain (position motion)
                                           (_minStep (this w)) (_maxStep (this w))))
                      (received (setAcceleration (Arduino.constrain (acceleration motion)
                                           1 (_maxStepAcceleration (this w))))
                      (received (setSpeedInHz (Arduino.constrain (speed motion)
                                           1 (_maxStepPerSecond (this w)))) sv)))) w).
Proof.
  intros Hsv. unfold _applyMotionProfile, bind, self, servo_do. simpl.
  rewrite Hsv. reflexivity.
Qed.

(** ** Crash avoidance at the travel boundary *)

Lemma division_by_zero_distance (a : Z) (q : Q) :
  Fp.div (Fp.of_int a) (crash_divisor 0) <> Fp.Fin q.
Proof.
  unfold crash_divisor. simpl.
  destruct (Qeq_bool (inject_Z a) 0);
    [|destruct (Fp.Qlt_bool (inject_Z a) 0)]; discriminate.
Qed.

Lemma minimumDeceleration_zero_distance (v : Z) : minimumDeceleration_of v 0 = None.
Proof.
  unfold minimumDeceleration_of.
  destruct (Fp.div (Fp.of_int (Arduino.sq v)) (crash_divisor 0)) as [q| | |] eqn:E;
    [exfalso; exact (division_by_zero_distance _ _ E) | reflexivity ..].
Qed.

(** C1 (the code does not meet it).  With [distanceToCrash] equal to 0 the
    source divides by [2.0 * 0]: the quotient is never a finite number,
    whatever the current speed, and its conversion to [int] has no defined
    value.  No branch of [_stroking] treats the boundary apart. *)
Theorem minimumDeceleration_at_boundary_undefined (currentSpeed : Z) :
  (forall q : Q,
      Fp.div (Fp.of_int (Arduino.sq currentSpeed)) (crash_divisor 0) <> Fp.Fin q)
  /\ minimumDeceleration_of currentSpeed 0 = None.
Proof.
  split; [apply division_by_zero_distance | apply minimumDeceleration_zero_distance].
Qed.

(** The three stages of a cycle that finds the state RUNNING and the driver
    idle. *)
Lemma stroking_cycle_idle (nextTarget : Pattern.t -> Z -> motionParameter)
    (w : world) (sv : FastAccelStepper) :
  _state (this w) = SERVO_RUNNING ->
  servo w = Some sv -> isRunning sv = false ->
  _stroking_cycle nextTarget w
  = (currentMotion <- next_motion nextTarget ;;
     currentMotion <- avoid_crash currentMotion ;;
     _applyMotionProfile currentMotion ;;
     ret TaskDelayed) w.
Proof.
  intros Hst Hsv Hidle.
  unfold _stroking_cycle. unfold bind at 1. unfold self.
  rewrite Hst. cbn [ServoState_eqb negb].
  unfold bind at 1. unfold servo_get. rewrite Hsv, Hidle. reflexivity.
Qed.

Lemma next_motion_valid (nextTarget : Pattern.t -> Z -> motionParameter)
    (w : world) (p : Pattern.t) :
  0 <= _patternIndex (this w) ->
  patternTable w !! Z.to_nat (_patternIndex (this w)) = Some p ->
  next_motion nextTarget w
  = Some (nextTarget p (Int32.add (_index (this w)) 1),
          set_this (set_index (Int32.add (_index (this w)) 1) (this w)) w).
Proof.
  intros Hi Hp. unfold next_motion, bind, update, self, ret.
  rewrite (pattern_at_valid _ _ p); [reflexivity | exact Hi | exact Hp].
Qed.


Lemma avoid_crash_undefined (m : motionParameter) (w : world) (sv : FastAccelStepper)
    (v : Z) :
  servo w = Some sv ->
  currentSpeed_of (getCurrentSpeedInUs sv) = Some v ->
  minimumDeceleration_of v (distanceToCrash_of (this w) v (getCurrentPosition sv))
  = None ->
  avoid_crash m w = None.
Proof.
  intros Hsv Hv Hmd. unfold avoid_crash, bind, self, servo_get, lift, ret.
  rewrite Hsv. cbv beta iota. rewrite Hv. cbv beta iota. rewrite Hsv.
  cbv beta iota. rewrite Hmd. reflexivity.
Qed.

(** At the upper boundary, moving forward, a whole cycle of the stroking
    task has no defined outcome. *)
Lemma stroking_cycle_at_max_undefined (nextTarget : Pattern.t -> Z -> motionParameter)
    (w : world) (sv : FastAccelStepper) (p : Pattern.t) (v : Z) :
  _state (this w) = SERVO_RUNNING ->
  servo w = Some sv -> isRunning sv = false ->
  0 <= _patternIndex (this w) ->
  patternTable w !! Z.to_nat (_patternIndex (this w)) = Some p ->
  currentSpeed_of (getCurrentSpeedInUs sv) = Some v -> 0 < v ->
  getCurrentPosition sv = _maxStep (this w) ->
  _stroking_cycle nextTarget w = None.
Proof.
  intros Hst Hsv Hidle Hi Hp Hv Hpos Hat.
  rewrite (stroking_cycle_idle nextTarget w sv Hst Hsv Hidle).
  rewrite (bind_Some _ _ _ _ _ (next_motion_valid nextTarget w p Hi Hp)).
  apply bind_None. apply (avoid_crash_undefined _ _ sv v); [exact Hsv | exact Hv |].
  unfold distanceToCrash_of. simpl.
  destruct (Z.gtb_spec v 0); [|lia].
  rewrite Hat. unfold Int32.sub. rewrite Z.sub_diag.
  change (Int32.wrap 0) with 0.
  apply minimumDeceleration_zero_distance.
Qed.

(** The same at the lower boundary, for a speed that is not positive. *)
Lemma stroking_cycle_at_min_undefined (nextTarget : Pattern.t -> Z -> motionParameter)
    (w : world) (sv : FastAccelStepper) (p : Pattern.t) (v : Z) :
  _state (this w) = SERVO_RUNNING ->
  servo w = Some sv -> isRunning sv = false ->
  0 <= _patternIndex (this w) ->
  patternTable w !! Z.to_nat (_patternIndex (this w)) = Some p ->
  currentSpeed_of (getCurrentSpeedInUs sv) = Some v -> v <= 0 ->
  getCurrentPosition sv = _minStep (this w) ->
  _stroking_cycle nextTarget w = None.
Proof.
  intros Hst Hsv Hidle Hi Hp Hv Hneg Hat.
  rewrite (stroking_cycle_idle nextTarget w sv Hst Hsv Hidle).
  rewrite (bind_Some _ _ _ _ _ (next_motion_valid nextTarget w p Hi Hp)).
  apply bind_None. apply (avoid_crash_undefined _ _ sv v); [exact Hsv | exact Hv |].
  unfold distanceToCrash_of. simpl.
  destruct (Z.gtb_spec v 0); [lia|].
  rewrite Hat. unfold Int32.sub. rewrite Z.sub_diag.
  change (Int32.wrap 0) with 0.
  apply minimumDeceleration_zero_distance.
Qed.

(** ** The motion profile applier *)

(** C5.  With the derived limits of the data model ([1 <= maxStepPerSecond],
    [1 <= maxStepAcceleration], [minStep <= maxStep]) and a connected driver,
    [_applyMotionProfile] always succeeds, for every motion parameter, and
    issues exactly three calls: a speed clamped to [1, maxStepPerSecond], an
    acceleration clamped to [1, maxStepAcceleration] and a move to a position
    clamped to [minStep, maxStep]; nothing else changes. *)
Theorem applyMotionProfile_clamps (motion : motionParameter) (w : world)
    (sv : FastAccelStepper) :
  servo w = Some sv ->
  1 <= _maxStepPerSecond (this w) ->
  1 <= _maxStepAcceleration (this w) ->
  _minStep (this w) <= _maxStep (this w) ->
  let hz := Arduino.constrain (speed motion) 1 (_maxStepPerSecond (this w)) in
  let a := Arduino.constrain (acceleration motion) 1 (_maxStepAcceleration (this w)) in
  let target := Arduino.constrain (position motion) (_minStep (this w)) (_maxStep (this w)) in
  _applyMotionProfile motion w
  = Some (tt, set_servo (Some (received (moveTo target)
                              (received (setAcceleration a)
                              (received (setSpeedInHz hz) sv)))) w)
  /\ clamped 1 (_maxStepPerSecond (this w)) (speed motion) hz
  /\ clamped 1 (_maxStepAcceleration (this w)) (acceleration motion) a
  /\ clamped (_minStep (this w)) (_maxStep (this w)) (position motion) target.
Proof.
  intros Hsv Hs Ha Hp hz a target.
  split; [apply (applyMotionProfile_connected motion w sv Hsv)|].
  repeat split; apply constrain_clamped; assumption.
Qed.

Lemma applyMotionProfile_clamps_witness :
  calls_after (_applyMotionProfile
                 {| position := 9000; speed := 0; acceleration := 500000 |}
                 Sample.started)
  = calls Sample.stepper
    ++ [setDirectionPin 27 27; setEnablePin 26 true; setAutoEnable false; disableOutputs;
        setSpeedInHz 1; setAcceleration 240000; moveTo 7500].
Proof.
  destruct (applyMotionProfile_clamps
              {| position := 9000; speed := 0; acceleration := 500000 |}
              Sample.started
              {| isRunning := false; getCurrentPosition := 0; getCurrentSpeedInUs := 0;
                 calls := [setDirectionPin 27 27; setEnablePin 26 true;
                           setAutoEnable false; disableOutputs] |}
              eq_refl ltac:(vm_compute; discriminate) ltac:(vm_compute; discriminate)
              ltac:(vm_compute; discriminate))
    as (Hrun & _).
  rewrite Hrun. reflexivity.
Defined.

(** ** The crash-avoidance override *)


(** ** Selecting a pattern *)

Lemma to_unsigned_nonneg (i : Z) : 0 <= i -> Int32.to_unsigned i = i.
Proof.
  intros Hi. unfold Int32.to_unsigned. destruct (Z.ltb_spec i 0); [lia | reflexivity].
Qed.

Lemma to_unsigned_negative (i : Z) :
  Int32.min_int <= i -> i < 0 -> 2 ^ 31 <= Int32.to_unsigned i.
Proof.
  unfold Int32.to_unsigned, Int32.min_int. intros Hlo Hneg.
  destruct (Z.ltb_spec i 0); lia.
Qed.

Lemma patternTableSize_nonneg (w : world) : 0 <= patternTableSize w.
Proof. unfold patternTableSize. lia. Qed.

Lemma setPattern_rejects_large (i : Z) (w : world) :
  patternTableSize w <= i -> setPattern i w = Some (false, w).
Proof.
  intros Hi. pose proof (patternTableSize_nonneg w) as Hsize. unfold setPattern.
  rewrite to_unsigned_nonneg by lia.
  destruct (Z.ltb_spec i (patternTableSize w)); [lia | reflexivity].
Qed.

Lemma setPattern_rejects_negative (i : Z) (w : world) :
  Int32.min_int <= i -> i < 0 -> patternTableSize w <= 2 ^ 31 ->
  setPattern i w = Some (false, w).
Proof.
  intros Hlo Hneg Hsize. pose proof (to_unsigned_negative i Hlo Hneg) as Hu.
  unfold setPattern.
  destruct (Z.ltb_spec (Int32.to_unsigned i) (patternTableSize w)); [lia | reflexivity].
Qed.

Lemma inject_parameters_valid (w : world) (p : Pattern.t) :
  selected w p ->
  inject_parameters w
  = Some (tt, set_patternTable
                (<[Z.to_nat (_patternIndex (this w)) :=
                     Pattern.setSensation (_sensation (this w))
                       (Pattern.setStroke (_stroke (this w))
                          (Pattern.setDepth (_depth (this w))
                             (Pattern.setTimeOfStroke (_timeOfStroke (this w)) p)))]>
                   (patternTable w)) w).
Proof.
  intros [Hi Hp]. pose proof (lookup_lt_Some _ _ _ Hp) as Hlen.
  unfold inject_parameters. unfold bind at 1. unfold self.
  rewrite (bind_Some _ _ _ _ _ (on_pattern_valid _ _ w p Hi Hp)).
  erewrite bind_Some;
    [|apply on_pattern_valid; [exact Hi | apply list_lookup_insert_eq; exact Hlen]].
  erewrite bind_Some;
    [|apply on_pattern_valid; [exact Hi |]; simpl;
      apply list_lookup_insert_eq; rewrite length_insert; exact Hlen].
  erewrite on_pattern_valid;
    [|exact Hi | simpl; apply list_lookup_insert_eq;
                 rewrite !length_insert; exact Hlen].
  simpl. rewrite !list_insert_insert_eq. reflexivity.
Qed.

Lemma setPattern_accepts_valid (i : Z) (w : world) (p : Pattern.t) :
  0 <= i -> patternTable w !! Z.to_nat i = Some p ->
  exists w', setPattern i w = Some (true, w')
             /\ _patternIndex (this w') = i /\ _index (this w') = 0.
Proof.
  intros Hi Hp. pose proof (lookup_lt_Some _ _ _ Hp) as Hlen.
  unfold setPattern. rewrite to_unsigned_nonneg by exact Hi.
  destruct (Z.ltb_spec i (patternTableSize w)) as [_|Hge];
    [|unfold patternTableSize in Hge; lia].
  unfold bind at 1. unfold update at 1.
  erewrite bind_Some;
    [|apply (inject_parameters_valid _ p); split; [exact Hi | exact Hp]].
  eexists. split; [reflexivity|]. split; reflexivity.
Qed.

(** C3.  For every [int] index below 0 or at or above [patternTableSize],
    [setPattern] returns false and leaves the whole world, the active
    pattern index included, as it was; for every index from 0 up to
    [patternTableSize - 1] it returns true and makes that index the active
    one.  The comparison of the source is made on the index converted to
    unsigned, which is what takes a negative index above any table size (a
    table has fewer than 2^31 entries). *)
Theorem setPattern_checks_range (i : Z) (w : world) :
  Int32.min_int <= i ->
  patternTableSize w <= 2 ^ 31 ->
  (i < 0 \/ patternTableSize w <= i -> setPattern i w = Some (false, w))
  /\ (0 <= i < patternTableSize w ->
      exists w', setPattern i w = Some (true, w') /\ _patternIndex (this w') = i).
Proof.
  intros Hlo Hsize. split.
  - intros [Hneg|Hge].
    + apply setPattern_rejects_negative; assumption.
    + apply setPattern_rejects_large; exact Hge.
  - intros [Hi Hlt]. unfold patternTableSize in Hlt.
    destruct (lookup_lt_is_Some_2 (patternTable w) (Z.to_nat i)) as [p Hp]; [lia|].
    destruct (setPattern_accepts_valid i w p Hi Hp) as (w' & Hrun & Hidx & _).
    exists w'. split; assumption.
Qed.

Lemma setPattern_checks_range_witness :
  setPattern (-1) Sample.started = Some (false, Sample.started)
  /\ setPattern 3 Sample.started = Some (false, Sample.started)
  /\ exists w', setPattern 2 Sample.started = Some (true, w')
                /\ _patternIndex (this w') = 2.
Proof.
  assert (Hsize : patternTableSize Sample.started <= 2 ^ 31)
    by (vm_compute; discriminate).
  destruct (setPattern_checks_range (-1) Sample.started
              ltac:(vm_compute; discriminate) Hsize) as [Hneg _].
  destruct (setPattern_checks_range 3 Sample.started
              ltac:(vm_compute; discriminate) Hsize) as [Hlarge _].
  destruct (setPattern_checks_range 2 Sample.started
              ltac:(vm_compute; discriminate) Hsize) as [_ Hin].
  split; [apply Hneg; left; lia|].
  split; [apply Hlarge; right; vm_compute; discriminate|].
  apply Hin. vm_compute. split; [discriminate | reflexivity].
Defined.

(** ** The fault state *)

Lemma disable_connected (w : world) (sv : FastAccelStepper) :
  servo w = Some sv ->
  exists w', disable w = Some (tt, w')
             /\ _state (this w') = SERVO_DISABLED
             /\ _isHomed (this w') = false
             /\ servo w' = Some (received disableOutputs sv).
Proof.
  intros Hsv. unfold disable, bind, update, servo_do, self, ret. simpl.
  rewrite Hsv. simpl.
  destruct (_taskHomingHandle (this w)); eexists; repeat split; reflexivity.
Qed.

(** C4 (the code does not meet it).  [safeState] leaves the state ERROR,
    and a [disable] that follows takes it to DISABLED: the fault state is
    left without constructing the engine again. *)
Theorem disable_leaves_error_state (w : world) (sv : FastAccelStepper) :
  servo w = Some sv ->
  exists w1 w2,
    safeState w = Some (tt, w1)
    /\ _state (this w1) = SERVO_ERROR
    /\ disable w1 = Some (tt, w2)
    /\ _state (this w2) = SERVO_DISABLED.
Proof.
  intros Hsv.
  destruct (disable_connected w sv Hsv) as (w0 & Hdis & _ & _ & Hsv0).
  pose (w1 := set_this (set_state SERVO_ERROR (this w0)) w0).
  destruct (disable_connected w1 _ Hsv0) as (w2 & Hdis2 & Hst2 & _).
  exists w1, w2. split.
  { unfold safeState. rewrite (bind_Some _ _ _ _ _ Hdis). reflexivity. }
  split; [reflexivity|]. split; assumption.
Qed.

Lemma disable_leaves_error_state_witness :
  exists w1 w2,
    safeState Sample.started = Some (tt, w1)
    /\ _state (this w1) = SERVO_ERROR
    /\ disable w1 = Some (tt, w2)
    /\ _state (this w2) = SERVO_DISABLED.
Proof.
  apply (disable_leaves_error_state Sample.started
           {| isRunning := false; getCurrentPosition := 0; getCurrentSpeedInUs := 0;
              calls := [setDirectionPin 27 27; setEnablePin 26 true;
                        setAutoEnable false; disableOutputs] |}).
  reflexivity.
Defined.

(** ** Defaults set by [begin] *)

(** What [begin] leaves in the object whenever it has a defined result. *)
Lemma begin_defaults (physics : machineGeometry) (motor : motorProperties)
    (connected : option FastAccelStepper) (w w' : world) :
  begin physics motor connected w = Some (tt, w') ->
  _state (this w') = SERVO_DISABLED
  /\ _isHomed (this w') = false
  /\ _patternIndex (this w') = 0
  /\ _index (this w') = 0
  /\ _minStep (this w') = 0
  /\ _depth (this w') = _maxStep (this w')
  /\ _stroke (this w') = Int32.mul (Int32.div 1 3) (_maxStep (this w'))
  /\ _timeOfStroke (this w') = Fp.Fin 1
  /\ _sensation (this w') = Fp.Fin 0.
Proof.
  unfold begin, bind, update, self, lift, ret. simpl.
  destruct (Fp.to_int _) as [maxStep|]; [|discriminate].
  destruct (Fp.to_int _) as [maxStepPerSecond|]; [|discriminate].
  destruct (Fp.to_int _) as [maxStepAcceleration|]; [|discriminate].
  destruct connected as [sv|]; simpl; intros H; inversion H; subst; simpl;
    repeat split; reflexivity.
Qed.

(** C6 (the code does not meet it for the stroke).  After [begin] the depth
    is [maxStep], the time of stroke 1 and the sensation 0, but the stroke
    is 0: the source writes [1/3 * _maxStep], and the integer quotient [1/3]
    is 0.  With [maxStep] of 3 or more this is not [maxStep/3]. *)
Theorem begin_default_stroke_is_zero (physics : machineGeometry)
    (motor : motorProperties) (connected : option FastAccelStepper) (w w' : world) :
  begin physics motor connected w = Some (tt, w') ->
  _depth (this w') = _maxStep (this w')
  /\ _timeOfStroke (this w') = Fp.Fin 1
  /\ _sensation (this w') = Fp.Fin 0
  /\ _stroke (this w') = 0
  /\ (3 <= _maxStep (this w') -> _stroke (this w') <> Z.quot (_maxStep (this w')) 3).
Proof.
  intros H.
  destruct (begin_defaults _ _ _ _ _ H)
    as (_ & _ & _ & _ & _ & Hdepth & Hstroke & Htime & Hsens).
  assert (Hzero : _stroke (this w') = 0) by (rewrite Hstroke; reflexivity).
  repeat split; try assumption.
  intros Hmax. rewrite Hzero.
  assert (1 <= Z.quot (_maxStep (this w')) 3)
    by (apply Z.quot_le_lower_bound; lia).
  lia.
Qed.

Lemma begin_default_stroke_is_zero_witness :
  _maxStep (this Sample.started) = 7500
  /\ _stroke (this Sample.started) = 0
  /\ _stroke (this Sample.started) <> Z.quot (_maxStep (this Sample.started)) 3.
Proof.
  assert (Hrun : begin Sample.geometry Sample.motor (Some Sample.stepper) Sample.blank
                 = Some (tt, Sample.started)) by (vm_compute; reflexivity).
  destruct (begin_default_stroke_is_zero _ _ _ _ _ Hrun) as (_ & _ & _ & Hzero & Hne).
  split; [reflexivity|]. split; [exact Hzero|].
  apply Hne. vm_compute. discriminate.
Defined.

(** ** Moves that need a homed axis *)

(** C9.  While [isHomed] is false, [moveToMax] and [moveToMin] return false
    and leave the whole world as it was: no call reaches the driver, and
    neither the state, the homing flag nor any parameter changes. *)
Theorem moveTo_not_homed_is_noop (speed : Fp.double) (w : world) :
  _isHomed (this w) = false ->
  moveToMax speed w = Some (false, w) /\ moveToMin speed w = Some (false, w).
Proof.
  intros Hhomed. unfold moveToMax, moveToMin, bind, self.
  rewrite Hhomed. split; reflexivity.
Qed.

Lemma moveTo_not_homed_is_noop_witness :
  moveToMax (Fp.Fin 10) Sample.started = Some (false, Sample.started)
  /\ moveToMin (Fp.Fin 10) Sample.started = Some (false, Sample.started).
Proof.
  apply (moveTo_not_homed_is_noop (Fp.Fin 10) Sample.started). reflexivity.
Defined.

(** ** The parameter setters *)

Lemma setDepth_steps (depth : Fp.double) (w : world) :
  setDepth depth w
  = match Fp.to_int (Fp.mul depth (stepsPerMillimeter (_motor (this w)))) with
    | Some steps =>
        let d := Arduino.constrain steps (_minStep (this w)) (_maxStep (this w)) in
        on_pattern (_patternIndex (this w)) (Pattern.setDepth d)
                   (set_this (set_depth d (this w)) w)
    | None => None
    end.
Proof.
  unfold setDepth, bind, self, lift, update.
  destruct (Fp.to_int _); reflexivity.
Qed.

Lemma setStroke_steps (stroke : Fp.double) (w : world) :
  setStroke stroke w
  = match Fp.to_int (Fp.mul stroke (stepsPerMillimeter (_motor (this w)))) with
    | Some steps =>
        let d := Arduino.constrain steps (_minStep (this w)) (_maxStep (this w)) in
        on_pattern (_patternIndex (this w)) (Pattern.setStroke d)
                   (set_this (set_stroke d (this w)) w)
    | None => None
    end.
Proof.
  unfold setStroke, bind, self, lift, update.
  destruct (Fp.to_int _); reflexivity.
Qed.

(** ** Starting a stroke *)

Lemma stop_servo_connected (w : world) (sv : FastAccelStepper) :
  servo w = Some sv ->
  stop_servo w
  = Some (tt, set_servo
                (Some (received stopMove
                      (received applySpeedAcceleration
                      (received (setAcceleration (_maxStepAcceleration (this w))) sv))))
                w).
Proof.
  intros Hsv. unfold stop_servo, bind, self, servo_do. simpl. rewrite Hsv. reflexivity.
Qed.

(** C8.  From READY, with a connected driver and a valid pattern selected,
    [startMotion] returns true and leaves the state RUNNING, the step index
    -1, the selected pattern holding the engine's time of stroke, depth,
    stroke and sensation, and the stroking task created.  A stroking cycle
    run afterwards does nothing while the driver is still moving; the first
    one that finds it idle advances the index to 0 and asks the pattern for
    the target at index 0. *)
Theorem startMotion_restarts_pattern (nextTarget : Pattern.t -> Z -> motionParameter)
    (w : world) (sv : FastAccelStepper) (p : Pattern.t) :
  _state (this w) = SERVO_READY ->
  servo w = Some sv ->
  selected w p ->
  exists (w' : world) (p' : Pattern.t),
    startMotion w = Some (true, w')
    /\ _state (this w') = SERVO_RUNNING
    /\ _index (this w') = -1
    /\ _taskStrokingHandle (this w') = true
    /\ _patternIndex (this w') = _patternIndex (this w)
    /\ selected w' p'
    /\ Pattern._timeOfStroke p' = _timeOfStroke (this w)
    /\ Pattern._depth p' = _depth (this w)
    /\ Pattern._stroke p' = _stroke (this w)
    /\ Pattern._sensation p' = _sensation (this w)
    /\ (forall now : FastAccelStepper,
           isRunning now = true ->
           _stroking_cycle nextTarget (set_servo (Some now) w')
           = Some (TaskDelayed, set_servo (Some now) w'))
    /\ (forall now : FastAccelStepper,
           isRunning now = false ->
           _stroking_cycle nextTarget (set_servo (Some now) w')
           = (currentMotion <- avoid_crash (nextTarget p' 0) ;;
              _applyMotionProfile currentMotion ;;
              ret TaskDelayed)
               (set_servo (Some now) (set_this (set_index 0 (this w')) w'))).
Proof.
  intros Hst Hsv [Hi Hp]. pose proof (lookup_lt_Some _ _ _ Hp) as Hlen.
  pose (p' := Pattern.setSensation (_sensation (this w))
                (Pattern.setStroke (_stroke (this w))
                   (Pattern.setDepth (_depth (this w))
                      (Pattern.setTimeOfStroke (_timeOfStroke (this w)) p)))).
  pose (e1 := set_index (-1) (set_state SERVO_RUNNING (this w))).
  assert (Hrun : exists sv',
             startMotion w
             = Some (true,
                     set_this (set_taskStrokingHandle true e1)
                       (set_patternTable
                          (<[Z.to_nat (_patternIndex (this w)) := p']> (patternTable w))
                          (set_servo (Some sv') w)))).
  { unfold startMotion. unfold bind at 1. unfold self. rewrite Hst.
    cbn [ServoState_eqb negb]. unfold bind at 1. unfold servo_get. rewrite Hsv.
    destruct (isRunning sv).
    - exists (received stopMove
               (received applySpeedAcceleration
               (received (setAcceleration (_maxStepAcceleration (this w))) sv))).
      rewrite (bind_Some _ _ _ _ _ (stop_servo_connected w sv Hsv)).
      unfold bind at 1. unfold update at 1. unfold bind at 1. unfold update at 1.
      erewrite bind_Some;
        [|apply (inject_parameters_valid _ p); split; [exact Hi | exact Hp]].
      reflexivity.
    - exists sv. unfold bind at 1. unfold ret at 1.
      unfold bind at 1. unfold update at 1. unfold bind at 1. unfold update at 1.
      erewrite bind_Some;
        [|apply (inject_parameters_valid _ p); split; [exact Hi | exact Hp]].
      unfold bind, update, ret. cbn [this set_this patternTable set_patternTable
                                     servo set_servo inputPins homingCallbacks].
      rewrite <- Hsv. destruct w; reflexivity. }
  destruct Hrun as [sv' Hrun].
  eexists _, p'. split; [exact Hrun|].
  split; [reflexivity|]. split; [reflexivity|]. split; [reflexivity|].
  split; [reflexivity|].
  split; [split; [exact Hi | apply list_lookup_insert_eq; exact Hlen]|].
  split; [reflexivity|]. split; [reflexivity|]. split; [reflexivity|].
  split; [reflexivity|].
  split.
  - intros now Hnow. unfold _stroking_cycle, bind, self, servo_get, ret. simpl.
    rewrite Hnow. reflexivity.
  - intros now Hnow.
    erewrite stroking_cycle_idle; [|reflexivity|reflexivity|exact Hnow].
    erewrite bind_Some; [reflexivity|].
    erewrite next_motion_valid;
      [reflexivity | exact Hi | apply list_lookup_insert_eq; exact Hlen].
Qed.

Lemma startMotion_restarts_pattern_witness :
  exists (w' : world) (p' : Pattern.t),
    startMotion Sample.ready = Some (true, w')
    /\ _index (this w') = -1
    /\ selected w' p'
    /\ Pattern._depth p' = 7500
    /\ world_after (next_motion Sample.index_target w')
       = Some (set_this (set_index 0 (this w')) w').
Proof.
  assert (Hst : _state (this Sample.ready) = SERVO_READY) by reflexivity.
  assert (Hsv : servo Sample.ready = servo Sample.started) by reflexivity.
  assert (Hsel : selected Sample.ready (Sample.pattern "Simple Stroke"))
    by (split; [vm_compute; discriminate | reflexivity]).
  destruct (startMotion_restarts_pattern Sample.index_target Sample.ready _ _ Hst Hsv Hsel)
    as (w' & p' & Hrun & _ & Hidx & _ & _ & Hsel' & _ & Hdepth & _).
  exists w', p'. split; [exact Hrun|]. split; [exact Hidx|]. split; [exact Hsel'|].
  split; [exact Hdepth|].
  destruct Hsel' as [Hi Hp].
  rewrite (next_motion_valid Sample.index_target w' p' Hi Hp).
  rewrite Hidx. reflexivity.
Defined.

(** ** Homing *)

(** The input of the homing task matters at the pin [SERVO_ENDSTOP] only. *)
Lemma poll_homing_switch_reads_endstop (SERVO_ENDSTOP : Z)
    (polls polls' : list (Z -> bool)) (w : world) :
  map (fun digitalRead => digitalRead SERVO_ENDSTOP) polls
  = map (fun digitalRead => digitalRead SERVO_ENDSTOP) polls' ->
  poll_homing_switch SERVO_ENDSTOP polls w = poll_homing_switch SERVO_ENDSTOP polls' w.
Proof.
  revert polls'. induction polls as [|r later IH]; intros [|r' later'] H;
    try discriminate; [reflexivity|].
  simpl in H. injection H as Hr Hlater. simpl. rewrite Hr.
  destruct (r' SERVO_ENDSTOP); simpl; [apply IH; exact Hlater | reflexivity].
Qed.

Lemma homingProcedure_reads_endstop (SERVO_ENDSTOP : Z)
    (digitalRead digitalRead' : Z -> bool) (polls polls' : list (Z -> bool))
    (w : world) :
  digitalRead SERVO_ENDSTOP = digitalRead' SERVO_ENDSTOP ->
  map (fun r => r SERVO_ENDSTOP) polls = map (fun r => r SERVO_ENDSTOP) polls' ->
  _homingProcedure SERVO_ENDSTOP digitalRead polls w
  = _homingProcedure SERVO_ENDSTOP digitalRead' polls' w.
Proof.
  intros Hstart Hpolls. unfold _homingProcedure. rewrite Hstart.
  unfold bind at 1. symmetry. unfold bind at 1. symmetry.
  destruct (self w) as [[e w0]|]; [|reflexivity].
  unfold bind at 1. symmetry. unfold bind at 1. symmetry.
  destruct (servo_do _ w0) as [[? w1]|]; [|reflexivity].
  unfold bind at 1. symmetry. unfold bind at 1. symmetry.
  destruct (servo_do _ w1) as [[? w2]|]; [|reflexivity].
  unfold bind at 1. symmetry. unfold bind at 1. symmetry.
  match goal with |- match ?c w2 with _ => _ end = _ => destruct (c w2) as [[? w3]|] end;
    [|reflexivity].
  unfold bind at 1. symmetry. unfold bind at 1. symmetry.
  rewrite (poll_homing_switch_reads_endstop SERVO_ENDSTOP polls polls' w3 Hpolls).
  reflexivity.
Qed.

(** On a poll that reads LOW at [SERVO_ENDSTOP] the position is reassigned
    to the switch location, the axis is declared homed and a move to zero
    is issued. *)
Lemma poll_homing_switch_low (SERVO_ENDSTOP : Z) (digitalRead : Z -> bool)
    (later : list (Z -> bool)) (w : world) (sv : FastAccelStepper) (switch_at : Z) :
  servo w = Some sv ->
  digitalRead SERVO_ENDSTOP = false ->
  Fp.to_int (Fp.mul (Fp.neg (stepsPerMillimeter (_motor (this w))))
                    (keepoutBoundary (_physics (this w)))) = Some switch_at ->
  poll_homing_switch SERVO_ENDSTOP (digitalRead :: later) w
  = Some (tt, set_servo
                (Some (received (moveTo 0)
                      (received (forceStopAndNewPosition switch_at) sv)))
                (set_this (set_isHomed true (this w)) w)).
Proof.
  intros Hsv Hlow Hat. simpl. rewrite Hlow. simpl.
  unfold bind, self, lift, servo_do, update. rewrite Hat, Hsv. reflexivity.
Qed.

(** C7 (the code does not meet it).  The polling loop tests
    [digitalRead(SERVO_ENDSTOP) == LOW] whatever polarity was configured.
    With an active-high switch on the very pin the task reads, a poll at
    which the switch is not active (the pin reads LOW) makes the task
    reassign the position, issue the move to zero and declare the axis
    homed. *)
Theorem homing_poll_ignores_polarity (SERVO_ENDSTOP : Z)
    (digitalRead0 digitalRead1 : Z -> bool) (later : list (Z -> bool))
    (w : world) (sv : FastAccelStepper) (travel switch_at : Z) :
  servo w = Some sv ->
  _isHomed (this w) = false ->
  _callBackHomeing (this w) = false ->
  _homeingPin (this w) = SERVO_ENDSTOP ->
  _homeingActiveLow (this w) = 0 ->
  switch_active (this w) digitalRead0 = false ->
  switch_active (this w) digitalRead1 = false ->
  Fp.to_int (Fp.mul (Fp.neg (stepsPerMillimeter (_motor (this w))))
                    (physicalTravel (_physics (this w)))) = Some travel ->
  Fp.to_int (Fp.mul (Fp.neg (stepsPerMillimeter (_motor (this w))))
                    (keepoutBoundary (_physics (this w)))) = Some switch_at ->
  exists w',
    _homingProcedure SERVO_ENDSTOP digitalRead0 (digitalRead1 :: later) w = Some (tt, w')
    /\ _isHomed (this w') = true
    /\ _state (this w') = SERVO_READY
    /\ calls_after (Some (tt, w'))
       = calls sv ++ [setSpeedInHz (_homeingSpeed (this w));
                      setAcceleration (Int32.div (_maxStepAcceleration (this w)) 10);
                      move travel;
                      forceStopAndNewPosition switch_at;
                      moveTo 0].
Proof.
  intros Hsv Hhomed Hcb Hpin Hpol Hoff0 Hoff1 Htravel Hat.
  unfold switch_active in Hoff0, Hoff1. rewrite Hpin, Hpol in Hoff0, Hoff1.
  simpl in Hoff0, Hoff1.
  apply Bool.eqb_false_iff in Hoff0, Hoff1.
  assert (Hlow0 : digitalRead0 SERVO_ENDSTOP = false)
    by (destruct (digitalRead0 SERVO_ENDSTOP); congruence).
  assert (Hlow1 : digitalRead1 SERVO_ENDSTOP = false)
    by (destruct (digitalRead1 SERVO_ENDSTOP); congruence).
  unfold _homingProcedure. unfold bind at 1. unfold self.
  rewrite Hlow0, Hpol. simpl Bool.eqb. cbv iota.
  repeat (erewrite bind_Some; [|apply servo_do_connected; first [exact Hsv | reflexivity]]).
  unfold bind at 1. unfold bind at 1. unfold lift. rewrite Htravel.
  erewrite servo_do_connected; [|reflexivity].
  erewrite bind_Some;
    [|apply (poll_homing_switch_low SERVO_ENDSTOP digitalRead1 later);
      [reflexivity | exact Hlow1 | exact Hat]].
  unfold bind, self, update, ret. simpl. rewrite Hcb. simpl.
  eexists. split; [reflexivity|]. split; [reflexivity|]. split; [reflexivity|].
  simpl. rewrite <- !app_assoc. reflexivity.
Qed.

Lemma homing_poll_ignores_polarity_witness :
  exists w',
    _homingProcedure 12 (fun _ => false) [fun _ => false] Sample.homing = Some (tt, w')
    /\ _isHomed (this w') = true
    /\ _state (this w') = SERVO_READY.
Proof.
  pose (sv := {| isRunning := false; getCurrentPosition := 0; getCurrentSpeedInUs := 0;
                 calls := [setDirectionPin 27 27; setEnablePin 26 true;
                           setAutoEnable false; disableOutputs; enableOutputs] |}).
  assert (Hsv : servo Sample.homing = Some sv) by reflexivity.
  assert (Htravel : Fp.to_int
                      (Fp.mul (Fp.neg (stepsPerMillimeter (_motor (this Sample.homing))))
                              (physicalTravel (_physics (this Sample.homing))))
                    = Some (-8000)) by (vm_compute; reflexivity).
  assert (Hat : Fp.to_int
                  (Fp.mul (Fp.neg (stepsPerMillimeter (_motor (this Sample.homing))))
                          (keepoutBoundary (_physics (this Sample.homing))))
                = Some (-250)) by (vm_compute; reflexivity).
  destruct (homing_poll_ignores_polarity 12 (fun _ => false) (fun _ => false) []
              Sample.homing sv (-8000) (-250)
              Hsv eq_refl eq_refl eq_refl eq_refl eq_refl eq_refl Htravel Hat)
    as (w' & Hrun & Hhomed & Hstate & _).
  exists w'. split; [exact Hrun|]. split; assumption.
Defined.

(** * Further properties of the engine *)

(** ** Floating-point clamping *)

Lemma constrain_within (lo hi : Q) (x : Fp.double) :
  (lo <= hi)%Q -> x <> Fp.NaN ->
  within lo hi (Fp.constrain x (Fp.Fin lo) (Fp.Fin hi)).
Proof.
  intros Hle Hx. unfold within, Fp.constrain, Fp.gt.
  destruct x as [q| | |]; [| | |congruence]; simpl.
  - unfold Fp.Qlt_bool.
    destruct (Qle_bool lo q) eqn:Hlo; simpl.
    + destruct (Qle_bool q hi) eqn:Hhi; simpl.
      * exists q. split; [reflexivity|]. split; apply Qle_bool_iff; assumption.
      * exists hi. split; [reflexivity|]. split; [exact Hle | apply Qle_refl].
    + exists lo. split; [reflexivity|]. split; [apply Qle_refl | exact Hle].
  - exists hi. split; [reflexivity|]. split; [exact Hle | apply Qle_refl].
  - exists lo. split; [reflexivity|]. split; [apply Qle_refl | exact Hle].
Qed.

(** ** The setters *)

Lemma setSpeed_selected (speed : Fp.double) (w : world) (p : Pattern.t) :
  selected w p ->
  let t := Fp.constrain (Fp.div (Fp.Fin 60) speed) (Fp.Fin (1 # 100)) (Fp.Fin 120) in
  setSpeed speed w
  = Some (tt, set_patternTable
                (<[Z.to_nat (_patternIndex (this w)) := Pattern.setTimeOfStroke t p]>
                   (patternTable w))
                (set_this (set_timeOfStroke t (this w)) w)).
Proof.
  intros [Hi Hp] t.
  exact (on_pattern_valid _ _ (set_this (set_timeOfStroke t (this w)) w) p Hi Hp).
Qed.

Lemma setSensation_selected (sensation : Fp.double) (w : world) (p : Pattern.t) :
  selected w p ->
  let s := Fp.constrain sensation (Fp.Fin (-100)) (Fp.Fin 100) in
  setSensation sensation w
  = Some (tt, set_patternTable
                (<[Z.to_nat (_patternIndex (this w)) := Pattern.setSensation s p]>
                   (patternTable w))
                (set_this (set_sensation s (this w)) w)).
Proof.
  intros [Hi Hp] s.
  exact (on_pattern_valid _ _ (set_this (set_sensation s (this w)) w) p Hi Hp).
Qed.

Lemma setDepth_selected (depth : Fp.double) (w : world) (p : Pattern.t) (steps : Z) :
  selected w p ->
  Fp.to_int (Fp.mul depth (stepsPerMillimeter (_motor (this w)))) = Some steps ->
  let d := Arduino.constrain steps (_minStep (this w)) (_maxStep (this w)) in
  setDepth depth w
  = Some (tt, set_patternTable
                (<[Z.to_nat (_patternIndex (this w)) := Pattern.setDepth d p]>
                   (patternTable w))
                (set_this (set_depth d (this w)) w)).
Proof.
  intros [Hi Hp] Hsteps d. rewrite setDepth_steps, Hsteps.
  exact (on_pattern_valid _ _ (set_this (set_depth d (this w)) w) p Hi Hp).
Qed.

Lemma setStroke_selected (stroke : Fp.double) (w : world) (p : Pattern.t) (steps : Z) :
  selected w p ->
  Fp.to_int (Fp.mul stroke (stepsPerMillimeter (_motor (this w)))) = Some steps ->
  let d := Arduino.constrain steps (_minStep (this w)) (_maxStep (this w)) in
  setStroke stroke w
  = Some (tt, set_patternTable
                (<[Z.to_nat (_patternIndex (this w)) := Pattern.setStroke d p]>
                   (patternTable w))
                (set_this (set_stroke d (this w)) w)).
Proof.
  intros [Hi Hp] Hsteps d. rewrite setStroke_steps, Hsteps.
  exact (on_pattern_valid _ _ (set_this (set_stroke d (this w)) w) p Hi Hp).
Qed.

Lemma selected_after_insert (w w' : world) (p q : Pattern.t) :
  selected w p ->
  _patternIndex (this w') = _patternIndex (this w) ->
  patternTable w' = <[Z.to_nat (_patternIndex (this w)) := q]> (patternTable w) ->
  selected w' q.
Proof.
  intros [Hi Hp] Hidx Htable. split; [rewrite Hidx; exact Hi|].
  rewrite Hidx, Htable. apply list_lookup_insert_eq.
  exact (lookup_lt_Some _ _ _ Hp).
Qed.

(** X2.  [setSensation] never stores a sensation outside [-100, 100]: for
    every input other than NaN the stored value is finite and within the two
    bounds, and the selected pattern receives the same value. *)
Theorem setSensation_bounded (sensation : Fp.double) (w : world) (p : Pattern.t) :
  selected w p ->
  exists (w' : world) (p' : Pattern.t),
    setSensation sensation w = Some (tt, w')
    /\ selected w' p'
    /\ Pattern._sensation p' = _sensation (this w')
    /\ (sensation <> Fp.NaN -> within (-100) 100 (_sensation (this w'))).
Proof.
  intros Hsel. eexists _, _.
  split; [apply (setSensation_selected sensation w p Hsel)|].
  split; [apply (selected_after_insert w _ p _ Hsel); reflexivity|].
  split; [reflexivity|]. simpl.
  intros Hs. apply constrain_within; [discriminate | exact Hs].
Qed.

Lemma setSensation_bounded_witness :
  exists w' : world,
    setSensation Fp.PInf Sample.started = Some (tt, w')
    /\ within (-100) 100 (_sensation (this w')).
Proof.
  assert (Hsel : selected Sample.started (Sample.pattern "Simple Stroke"))
    by (split; [vm_compute; discriminate | reflexivity]).
  destruct (setSensation_bounded Fp.PInf Sample.started _ Hsel)
    as (w' & p' & Hrun & _ & _ & Hin).
  exists w'. split; [exact Hrun | apply Hin; discriminate].
Defined.

(** X3.  With [minStep <= maxStep], [setDepth] and [setStroke] store a step
    count within [minStep, maxStep] for every input whose step count fits an
    [int], and the selected pattern receives the same value; an input
    inside the range is stored unchanged. *)
Theorem setDepth_setStroke_bounded (value : Fp.double) (w : world) (p : Pattern.t)
    (steps : Z) :
  selected w p ->
  _minStep (this w) <= _maxStep (this w) ->
  Fp.to_int (Fp.mul value (stepsPerMillimeter (_motor (this w)))) = Some steps ->
  (exists (w' : world) (p' : Pattern.t),
      setDepth value w = Some (tt, w')
      /\ selected w' p'
      /\ Pattern._depth p' = _depth (this w')
      /\ clamped (_minStep (this w)) (_maxStep (this w)) steps (_depth (this w')))
  /\ (exists (w' : world) (p' : Pattern.t),
         setStroke value w = Some (tt, w')
         /\ selected w' p'
         /\ Pattern._stroke p' = _stroke (this w')
         /\ clamped (_minStep (this w)) (_maxStep (this w)) steps (_stroke (this w'))).
Proof.
  intros Hsel Hlim Hsteps. split; eexists _, _.
  - split; [apply (setDepth_selected value w p steps Hsel Hsteps)|].
    split; [apply (selected_after_insert w _ p _ Hsel); reflexivity|].
    split; [reflexivity|]. apply constrain_clamped. exact Hlim.
  - split; [apply (setStroke_selected value w p steps Hsel Hsteps)|].
    split; [apply (selected_after_insert w _ p _ Hsel); reflexivity|].
    split; [reflexivity|]. apply constrain_clamped. exact Hlim.
Qed.

Lemma setDepth_setStroke_bounded_witness :
  exists w' : world,
    setDepth (Fp.Fin 200) Sample.started = Some (tt, w')
    /\ _depth (this w') = 7500.
Proof.
  assert (Hsel : selected Sample.started (Sample.pattern "Simple Stroke"))
    by (split; [vm_compute; discriminate | reflexivity]).
  assert (Hlim : _minStep (this Sample.started) <= _maxStep (this Sample.started))
    by (vm_compute; discriminate).
  assert (Hsteps : Fp.to_int (Fp.mul (Fp.Fin 200)
                                (stepsPerMillimeter (_motor (this Sample.started))))
                   = Some 10000) by (vm_compute; reflexivity).
  destruct (setDepth_setStroke_bounded (Fp.Fin 200) Sample.started _ 10000
              Hsel Hlim Hsteps) as [(w' & p' & Hrun & _ & _ & Hclamp) _].
  exists w'. split; [exact Hrun|].
  destruct Hclamp as (_ & _ & _ & Hhi). apply Hhi. vm_compute. reflexivity.
Defined.

(** ** Switching patterns *)

Lemma setPattern_valid (i : Z) (w : world) (p : Pattern.t) :
  0 <= i -> patternTable w !! Z.to_nat i = Some p ->
  setPattern i w
  = Some (true,
          set_this (set_index 0 (set_patternIndex i (this w)))
            (set_patternTable (<[Z.to_nat i := injected (this w) p]> (patternTable w)) w)).
Proof.
  intros Hi Hp. pose proof (lookup_lt_Some _ _ _ Hp) as Hlen.
  unfold setPattern. rewrite to_unsigned_nonneg by exact Hi.
  destruct (Z.ltb_spec i (patternTableSize w)) as [_|Hge];
    [|unfold patternTableSize in Hge; lia].
  unfold bind at 1. unfold update at 1.
  erewrite bind_Some;
    [|apply (inject_parameters_valid _ p); split; [exact Hi | exact Hp]].
  reflexivity.
Qed.

(** A call of [setPattern] that returns true was given an index of the
    table. *)
Lemma setPattern_true_inv (i : Z) (w w' : world) :
  setPattern i w = Some (true, w') ->
  exists p, 0 <= i /\ patternTable w !! Z.to_nat i = Some p.
Proof.
  unfold setPattern.
  destruct (Z.ltb_spec (Int32.to_unsigned i) (patternTableSize w)) as [Hlt|Hge];
    [|discriminate].
  destruct (Z.ltb_spec i 0) as [Hneg|Hpos].
  - intros H. exfalso. revert H.
    unfold bind at 1. unfold update at 1.
    rewrite bind_None; [discriminate|].
    unfold inject_parameters. unfold bind at 1. unfold self.
    apply bind_None. unfold on_pattern. apply bind_None.
    apply pattern_at_negative. exact Hneg.
  - intros _. rewrite to_unsigned_nonneg in Hlt by exact Hpos.
    unfold patternTableSize in Hlt.
    destruct (lookup_lt_is_Some_2 (patternTable w) (Z.to_nat i)) as [p Hp]; [lia|].
    exists p. split; assumption.
Qed.

(** X4.  [setPattern] with an index at or above [patternTableSize] returns
    false and changes nothing.  With an index of the table it returns true
    and changes three things only: the selected index, the step index (reset
    to 0) and the newly selected pattern, which receives the engine's four
    current parameters; every other pattern, the engine state, [isHomed] and
    the driver are as before, also while a stroke is running. *)
Theorem setPattern_switches (i : Z) (w : world) :
  (patternTableSize w <= i -> setPattern i w = Some (false, w))
  /\ (forall p : Pattern.t,
         0 <= i -> patternTable w !! Z.to_nat i = Some p ->
         setPattern i w
         = Some (true,
                 set_this (set_index 0 (set_patternIndex i (this w)))
                   (set_patternTable
                      (<[Z.to_nat i := injected (this w) p]> (patternTable w)) w))
         /\ forall j : nat, j <> Z.to_nat i ->
              <[Z.to_nat i := injected (this w) p]> (patternTable w) !! j
              = patternTable w !! j).
Proof.
  split.
  - intros Hi. pose proof (patternTableSize_nonneg w) as Hsize. unfold setPattern.
    rewrite to_unsigned_nonneg by lia.
    destruct (Z.ltb_spec i (patternTableSize w)); [lia | reflexivity].
  - intros p Hi Hp. split; [apply setPattern_valid; assumption|].
    intros j Hj. apply list_lookup_insert_ne. congruence.
Qed.

(** ** The selected pattern follows the engine's parameters *)

Lemma startMotion_ready (w : world) (sv : FastAccelStepper) (p : Pattern.t) :
  _state (this w) = SERVO_READY ->
  servo w = Some sv ->
  selected w p ->
  startMotion w
  = Some (true,
          set_this (set_taskStrokingHandle true
                      (set_index (-1) (set_state SERVO_RUNNING (this w))))
            (set_patternTable
               (<[Z.to_nat (_patternIndex (this w)) := injected (this w) p]>
                  (patternTable w))
               (set_servo
                  (Some (if isRunning sv
                         then received stopMove
                                (received applySpeedAcceleration
                                   (received (setAcceleration
                                                (_maxStepAcceleration (this w))) sv))
                         else sv))
                  w))).
Proof.
  intros Hst Hsv [Hi Hp].
  unfold startMotion. unfold bind at 1. unfold self. rewrite Hst.
  cbn [ServoState_eqb negb]. unfold bind at 1. unfold servo_get. rewrite Hsv.
  destruct (isRunning sv).
  - rewrite (bind_Some _ _ _ _ _ (stop_servo_connected w sv Hsv)).
    unfold bind at 1. unfold update at 1. unfold bind at 1. unfold update at 1.
    erewrite bind_Some;
      [|apply (inject_parameters_valid _ p); split; [exact Hi | exact Hp]].
    reflexivity.
  - unfold bind at 1. unfold ret at 1.
    unfold bind at 1. unfold update at 1. unfold bind at 1. unfold update at 1.
    erewrite bind_Some;
      [|apply (inject_parameters_valid _ p); split; [exact Hi | exact Hp]].
    unfold bind, update, ret. cbn [this set_this patternTable set_patternTable
                                   servo set_servo inputPins homingCallbacks].
    rewrite <- Hsv. destruct w; reflexivity.
Qed.

Lemma startMotion_true_inv (w w' : world) :
  startMotion w = Some (true, w') ->
  exists sv p, _state (this w) = SERVO_READY /\ servo w = Some sv /\ selected w p.
Proof.
  unfold startMotion. unfold bind at 1. unfold self.
  destruct (_state (this w)) eqn:Hst; cbn [ServoState_eqb negb];
    try (unfold ret; intros H; discriminate H).
  unfold bind at 1. unfold servo_get.
  destruct (servo w) as [sv|] eqn:Hsv; [|discriminate].
  intros H. exists sv.
  destruct (Z.ltb_spec (_patternIndex (this w)) 0) as [Hneg|Hpos].
  - exfalso. revert H.
    assert (Hinj : forall w0 : world,
               _patternIndex (this w0) = _patternIndex (this w) ->
               inject_parameters w0 = None).
    { intros w0 Hw0. unfold inject_parameters. unfold bind at 1. unfold self.
      apply bind_None. unfold on_pattern. apply bind_None.
      apply pattern_at_negative. rewrite Hw0. exact Hneg. }
    destruct (isRunning sv).
    + rewrite (bind_Some _ _ _ _ _ (stop_servo_connected w sv Hsv)).
      unfold bind at 1. unfold update at 1. unfold bind at 1. unfold update at 1.
      rewrite bind_None; [discriminate | apply Hinj; reflexivity].
    + unfold bind at 1. unfold ret at 1.
      unfold bind at 1. unfold update at 1. unfold bind at 1. unfold update at 1.
      rewrite bind_None; [discriminate | apply Hinj; reflexivity].
  - destruct (patternTable w !! Z.to_nat (_patternIndex (this w))) as [p|] eqn:Hp.
    + exists p. split; [reflexivity|]. split; [reflexivity|]. split; assumption.
    + exfalso. revert H.
      assert (Hinj : forall w0 : world,
                 _patternIndex (this w0) = _patternIndex (this w) ->
                 patternTable w0 = patternTable w ->
                 inject_parameters w0 = None).
      { intros w0 Hw0 Ht0. unfold inject_parameters. unfold bind at 1. unfold self.
        apply bind_None. unfold on_pattern. apply bind_None.
        unfold pattern_at. rewrite Hw0, Ht0, Hp.
        destruct (_patternIndex (this w) <? 0); reflexivity. }
      destruct (isRunning sv).
      * rewrite (bind_Some _ _ _ _ _ (stop_servo_connected w sv Hsv)).
        unfold bind at 1. unfold update at 1. unfold bind at 1. unfold update at 1.
        rewrite bind_None; [discriminate | apply Hinj; reflexivity].
      * unfold bind at 1. unfold ret at 1.
        unfold bind at 1. unfold update at 1. unfold bind at 1. unfold update at 1.
        rewrite bind_None; [discriminate | apply Hinj; reflexivity].
Qed.

Lemma synced_injected (w w' : world) (p : Pattern.t) :
  selected w' (injected (this w) p) ->
  _timeOfStroke (this w') = _timeOfStroke (this w) ->
  _depth (this w') = _depth (this w) ->
  _stroke (this w') = _stroke (this w) ->
  _sensation (this w') = _sensation (this w) ->
  synced w'.
Proof.
  intros Hsel Ht Hd Hs Hn. exists (injected (this w) p).
  split; [exact Hsel|]. rewrite Ht, Hd, Hs, Hn. repeat split; reflexivity.
Qed.

(** X5.  The selected pattern holding the engine's four parameters is a
    state that every successful [setPattern] and every successful
    [startMotion] establishes and that each of the four setters keeps: once
    a pattern has been selected or a stroke started, a later change of a
    parameter is never out of step with the pattern that is asked for the
    next target. *)
Theorem selected_pattern_stays_synced (w w' : world) (i : Z) (value : Fp.double) :
  (setPattern i w = Some (true, w') -> synced w')
  /\ (startMotion w = Some (true, w') -> synced w')
  /\ (synced w ->
      setSpeed value w = Some (tt, w') \/ setDepth value w = Some (tt, w')
      \/ setStroke value w = Some (tt, w') \/ setSensation value w = Some (tt, w') ->
      synced w').
Proof.
  split; [|split].
  - intros H. destruct (setPattern_true_inv i w w' H) as (p & Hi & Hp).
    rewrite (setPattern_valid i w p Hi Hp) in H. injection H as <-.
    apply (synced_injected w _ p); try reflexivity.
    split; [exact Hi | apply list_lookup_insert_eq; exact (lookup_lt_Some _ _ _ Hp)].
  - intros H. destruct (startMotion_true_inv w w' H) as (sv & p & Hst & Hsv & Hsel).
    rewrite (startMotion_ready w sv p Hst Hsv Hsel) in H. injection H as <-.
    apply (synced_injected w _ p); try reflexivity.
    destruct Hsel as [Hi Hp].
    split; [exact Hi | apply list_lookup_insert_eq; exact (lookup_lt_Some _ _ _ Hp)].
  - intros (p & Hsel & Ht & Hd & Hs & Hn) H.
    destruct H as [H | [H | [H | H]]].
    + rewrite (setSpeed_selected value w p Hsel) in H. injection H as <-.
      eexists. split; [apply (selected_after_insert w _ p _ Hsel); reflexivity|].
      simpl. repeat split; assumption.
    + assert (Hdef : exists steps,
                 Fp.to_int (Fp.mul value (stepsPerMillimeter (_motor (this w))))
                 = Some steps).
      { pose proof H as H'. rewrite setDepth_steps in H'.
        destruct (Fp.to_int _) as [steps|]; [exists steps; reflexivity | discriminate]. }
      destruct Hdef as [steps Hsteps].
      rewrite (setDepth_selected value w p steps Hsel Hsteps) in H. injection H as <-.
      eexists. split; [apply (selected_after_insert w _ p _ Hsel); reflexivity|].
      simpl. repeat split; assumption.
    + assert (Hdef : exists steps,
                 Fp.to_int (Fp.mul value (stepsPerMillimeter (_motor (this w))))
                 = Some steps).
      { pose proof H as H'. rewrite setStroke_steps in H'.
        destruct (Fp.to_int _) as [steps|]; [exists steps; reflexivity | discriminate]. }
      destruct Hdef as [steps Hsteps].
      rewrite (setStroke_selected value w p steps Hsel Hsteps) in H. injection H as <-.
      eexists. split; [apply (selected_after_insert w _ p _ Hsel); reflexivity|].
      simpl. repeat split; assumption.
    + rewrite (setSensation_selected value w p Hsel) in H. injection H as <-.
      eexists. split; [apply (selected_after_insert w _ p _ Hsel); reflexivity|].
      simpl. repeat split; assumption.
Qed.

Lemma setPattern_switches_witness :
  exists w' : world,
    setPattern 2 Sample.started = Some (true, w')
    /\ _patternIndex (this w') = 2
    /\ patternTable w' !! 0%nat = patternTable Sample.started !! 0%nat
    /\ setPattern 3 Sample.started = Some (false, Sample.started).
Proof.
  destruct (setPattern_switches 2 Sample.started) as [_ Hin].
  destruct (Hin (Sample.pattern "Robo Stroke") ltac:(lia) eq_refl) as [Hrun Hother].
  destruct (setPattern_switches 3 Sample.started) as [Hout _].
  eexists. split; [exact Hrun|]. split; [reflexivity|].
  split; [apply Hother; discriminate | apply Hout; vm_compute; discriminate].
Defined.

Lemma selected_pattern_stays_synced_witness :
  exists w1 w2 : world,
    setPattern 1 Sample.started = Some (true, w1)
    /\ setDepth (Fp.Fin 20) w1 = Some (tt, w2)
    /\ synced w2.
Proof.
  assert (H1 : exists w1, setPattern 1 Sample.started = Some (true, w1))
    by (eexists; vm_compute; reflexivity).
  destruct H1 as [w1 H1].
  assert (Hs1 : synced w1)
    by exact (proj1 (selected_pattern_stays_synced Sample.started w1 1 (Fp.Fin 0)) H1).
  assert (H2 : exists w2, setDepth (Fp.Fin 20) w1 = Some (tt, w2)).
  { pose proof H1 as H1'. vm_compute in H1'. injection H1' as <-.
    eexists. vm_compute. reflexivity. }
  destruct H2 as [w2 H2].
  exists w1, w2. split; [exact H1|]. split; [exact H2|].
  exact (proj2 (proj2 (selected_pattern_stays_synced w1 w2 0 (Fp.Fin 20)))
           Hs1 (or_intror (or_introl H2))).
Defined.

(** ** Starting, stopping and the stroking task *)

Lemma stopMotion_running (w : world) (sv : FastAccelStepper) :
  _state (this w) = SERVO_RUNNING ->
  servo w = Some sv ->
  stopMotion w
  = Some (tt, set_this (set_state SERVO_READY (this w))
                (set_servo
                   (Some (received stopMove
                         (received applySpeedAcceleration
                         (received (setAcceleration (_maxStepAcceleration (this w))) sv))))
                   w)).
Proof.
  intros Hst Hsv. unfold stopMotion. unfold bind at 1. unfold self. rewrite Hst.
  cbn [ServoState_eqb]. rewrite (bind_Some _ _ _ _ _ (stop_servo_connected w sv Hsv)).
  reflexivity.
Qed.

Lemma stopMotion_not_running (w : world) :
  _state (this w) <> SERVO_RUNNING -> stopMotion w = Some (tt, w).
Proof.
  intros Hst. unfold stopMotion, bind, self.
  destruct (_state (this w)); try reflexivity. congruence.
Qed.

Lemma stroking_cycle_not_running (nextTarget : Pattern.t -> Z -> motionParameter)
    (w : world) :
  _state (this w) <> SERVO_RUNNING ->
  _stroking_cycle nextTarget w
  = Some (TaskDeleted, set_this (set_taskStrokingHandle false (this w)) w).
Proof.
  intros Hst. unfold _stroking_cycle, bind, self.
  destruct (_state (this w)); try reflexivity. congruence.
Qed.

(** X6.  [startMotion] succeeds exactly from READY: with a connected driver
    and a valid pattern selected it returns true if and only if the state
    is READY, and from every other state it returns false and changes
    nothing. *)
Theorem startMotion_only_from_ready (w : world) (sv : FastAccelStepper)
    (p : Pattern.t) :
  servo w = Some sv ->
  selected w p ->
  (_state (this w) <> SERVO_READY -> startMotion w = Some (false, w))
  /\ ((exists w', startMotion w = Some (true, w')) <-> _state (this w) = SERVO_READY).
Proof.
  intros Hsv Hsel.
  assert (Hno : _state (this w) <> SERVO_READY -> startMotion w = Some (false, w)).
  { intros Hst. unfold startMotion, bind, self.
    destruct (_state (this w)); try reflexivity. congruence. }
  split; [exact Hno|]. split.
  - intros [w' H]. destruct (startMotion_true_inv w w' H) as (_ & _ & Hst & _).
    exact Hst.
  - intros Hst. eexists. apply (startMotion_ready w sv p Hst Hsv Hsel).
Qed.

Lemma startMotion_only_from_ready_witness :
  startMotion Sample.started = Some (false, Sample.started)
  /\ exists w', startMotion Sample.ready = Some (true, w').
Proof.
  assert (Hsel : selected Sample.started (Sample.pattern "Simple Stroke"))
    by (split; [vm_compute; discriminate | reflexivity]).
  assert (Hsel' : selected Sample.ready (Sample.pattern "Simple Stroke"))
    by (split; [vm_compute; discriminate | reflexivity]).
  split.
  - apply (startMotion_only_from_ready Sample.started _ _ eq_refl Hsel). discriminate.
  - apply (startMotion_only_from_ready Sample.ready _ _ eq_refl Hsel'). reflexivity.
Defined.

(** X7.  Starting and then stopping a stroke: [stopMotion] after a
    successful [startMotion] asks the driver to stop at the maximum
    acceleration and returns the state to READY but leaves the task handle
    set; the stroking task ends itself at its next cycle, clearing the
    handle and making no call on the driver. *)
Theorem start_stop_ends_stroking_task (nextTarget : Pattern.t -> Z -> motionParameter)
    (w : world) (sv : FastAccelStepper) (p : Pattern.t) :
  _state (this w) = SERVO_READY ->
  servo w = Some sv ->
  selected w p ->
  exists (w1 w2 w3 : world) (sv1 : FastAccelStepper),
    startMotion w = Some (true, w1)
    /\ servo w1 = Some sv1
    /\ stopMotion w1 = Some (tt, w2)
    /\ _state (this w2) = SERVO_READY
    /\ _taskStrokingHandle (this w2) = true
    /\ servo w2 = Some (received stopMove
                         (received applySpeedAcceleration
                         (received (setAcceleration (_maxStepAcceleration (this w))) sv1)))
    /\ _stroking_cycle nextTarget w2 = Some (TaskDeleted, w3)
    /\ _taskStrokingHandle (this w3) = false
    /\ _state (this w3) = SERVO_READY
    /\ servo w3 = servo w2.
Proof.
  intros Hst Hsv Hsel.
  eexists _, _, _, _.
  split; [apply (startMotion_ready w sv p Hst Hsv Hsel)|].
  split; [reflexivity|].
  split; [apply stopMotion_running; reflexivity|].
  split; [reflexivity|]. split; [reflexivity|]. split; [reflexivity|].
  split; [apply stroking_cycle_not_running; discriminate|].
  split; [reflexivity|]. split; reflexivity.
Qed.

Lemma start_stop_ends_stroking_task_witness :
  exists w1 w2 w3 : world,
    startMotion Sample.ready = Some (true, w1)
    /\ stopMotion w1 = Some (tt, w2)
    /\ _stroking_cycle Sample.index_target w2 = Some (TaskDeleted, w3)
    /\ _taskStrokingHandle (this w3) = false.
Proof.
  assert (Hsel : selected Sample.ready (Sample.pattern "Simple Stroke"))
    by (split; [vm_compute; discriminate | reflexivity]).
  destruct (start_stop_ends_stroking_task Sample.index_target Sample.ready _ _
              eq_refl eq_refl Hsel)
    as (w1 & w2 & w3 & sv1 & H1 & _ & H2 & _ & _ & _ & H3 & H4 & _).
  exists w1, w2, w3. repeat split; assumption.
Defined.

(** X8.  A cycle of the stroking task calls the driver and advances the
    step index only when the state is RUNNING and the driver is idle: in
    any other state it deletes the task and clears its handle, and while
    the driver is still moving it leaves the world as it is. *)
Theorem stroking_cycle_quiet (nextTarget : Pattern.t -> Z -> motionParameter)
    (w : world) (sv : FastAccelStepper) :
  servo w = Some sv ->
  (_state (this w) <> SERVO_RUNNING ->
   _stroking_cycle nextTarget w
   = Some (TaskDeleted, set_this (set_taskStrokingHandle false (this w)) w))
  /\ (_state (this w) = SERVO_RUNNING -> isRunning sv = true ->
      _stroking_cycle nextTarget w = Some (TaskDelayed, w)).
Proof.
  intros Hsv. split; [apply stroking_cycle_not_running|].
  intros Hst Hrun. unfold _stroking_cycle. unfold bind at 1. unfold self.
  rewrite Hst. cbn [ServoState_eqb negb].
  unfold bind, servo_get, ret. rewrite Hsv, Hrun. reflexivity.
Qed.

Lemma stroking_cycle_quiet_witness :
  _stroking_cycle Sample.index_target Sample.ready
  = Some (TaskDeleted,
          set_this (set_taskStrokingHandle false (this Sample.ready)) Sample.ready).
Proof.
  apply (stroking_cycle_quiet Sample.index_target Sample.ready _ eq_refl). discriminate.
Defined.

(** X9.  [applyNewSettingsNow] returns false and changes nothing unless the
    state is RUNNING.  While RUNNING it returns true and sends the driver
    the clamped target of the selected pattern at the current step index,
    whether or not the driver is still moving, and it does not advance the
    index or change any field of the engine. *)
Theorem applyNewSettingsNow_applies_current_index
    (nextTarget : Pattern.t -> Z -> motionParameter)
    (w : world) (sv : FastAccelStepper) (p : Pattern.t) :
  servo w = Some sv ->
  selected w p ->
  (_state (this w) <> SERVO_RUNNING -> applyNewSettingsNow nextTarget w = Some (false, w))
  /\ (_state (this w) = SERVO_RUNNING ->
      let m := nextTarget p (_index (this w)) in
      applyNewSettingsNow nextTarget w
      = Some (true,
              set_servo
                (Some (received (moveTo (Arduino.constrain (position m)
                                           (_minStep (this w)) (_maxStep (this w))))
                      (received (setAcceleration (Arduino.constrain (acceleration m)
                                           1 (_maxStepAcceleration (this w))))
                      (received (setSpeedInHz (Arduino.constrain (speed m)
                                           1 (_maxStepPerSecond (this w)))) sv))))
                w)).
Proof.
  intros Hsv [Hi Hp]. split.
  - intros Hst. unfold applyNewSettingsNow, bind, self.
    destruct (_state (this w)); try reflexivity. congruence.
  - intros Hst m. unfold applyNewSettingsNow. unfold bind at 1. unfold self.
    rewrite Hst. cbn [ServoState_eqb].
    rewrite (bind_Some _ _ _ _ _ (pattern_at_valid _ w p Hi Hp)).
    rewrite (bind_Some _ _ _ _ _ (applyMotionProfile_connected _ w sv Hsv)).
    reflexivity.
Qed.

Lemma applyNewSettingsNow_applies_current_index_witness :
  calls_after (applyNewSettingsNow Sample.index_target (Sample.stroking 240000 100 1000))
  = [setSpeedInHz 1; setAcceleration 1000; moveTo 0]
  /\ applyNewSettingsNow Sample.index_target Sample.ready = Some (false, Sample.ready).
Proof.
  pose (w := Sample.stroking 240000 100 1000).
  assert (Hsel : selected w (Sample.pattern "Simple Stroke"))
    by (split; [vm_compute; discriminate | vm_compute; reflexivity]).
  assert (Hsv : servo w = Some {| isRunning := false; getCurrentPosition := 100;
                                  getCurrentSpeedInUs := 1000; calls := [] |})
    by (vm_compute; reflexivity).
  assert (Hst : _state (this w) = SERVO_RUNNING) by (vm_compute; reflexivity).
  assert (Hsel' : selected Sample.ready (Sample.pattern "Simple Stroke"))
    by (split; [vm_compute; discriminate | reflexivity]).
  split.
  - fold w.
    rewrite (proj2 (applyNewSettingsNow_applies_current_index
                      Sample.index_target w _ _ Hsv Hsel) Hst).
    vm_compute. reflexivity.
  - apply (applyNewSettingsNow_applies_current_index
             Sample.index_target Sample.ready _ _ eq_refl Hsel').
    discriminate.
Defined.

(** ** Setting the home position by hand *)

(** X10.  [thisIsHome] does nothing in the state ERROR.  In any other state,
    RUNNING included, it enables the outputs, tells the driver that the
    current position is the switch location (minus the keepout boundary, in
    steps), sets [isHomed] and makes the state READY, without asking the
    driver to stop. *)
Theorem thisIsHome_sets_reference (w : world) (sv : FastAccelStepper) (home : Z) :
  servo w = Some sv ->
  Fp.to_int (Fp.mul (Fp.neg (stepsPerMillimeter (_motor (this w))))
                    (keepoutBoundary (_physics (this w)))) = Some home ->
  (_state (this w) = SERVO_ERROR -> thisIsHome w = Some (tt, w))
  /\ (_state (this w) <> SERVO_ERROR ->
      thisIsHome w
      = Some (tt, set_this (set_state SERVO_READY (set_isHomed true (this w)))
                    (set_servo (Some (received (setCurrentPosition home)
                                        (received enableOutputs sv))) w))
      /\ getCurrentPosition (received (setCurrentPosition home)
                               (received enableOutputs sv)) = home).
Proof.
  intros Hsv Hhome. split.
  - intros Hst. unfold thisIsHome, bind, self. rewrite Hst. reflexivity.
  - intros Hst. split; [|reflexivity].
    unfold thisIsHome. unfold bind at 1. unfold self.
    replace (negb (ServoState_eqb (_state (this w)) SERVO_ERROR)) with true
      by (destruct (_state (this w)); try reflexivity; congruence).
    rewrite (bind_Some _ _ _ _ _ (servo_do_connected enableOutputs w sv Hsv)).
    unfold bind at 1. unfold lift. cbn [this set_servo]. rewrite Hhome.
    erewrite bind_Some; [|apply servo_do_connected; reflexivity].
    reflexivity.
Qed.

Lemma thisIsHome_sets_reference_witness :
  exists w' : world,
    thisIsHome Sample.started = Some (tt, w')
    /\ _isHomed (this w') = true
    /\ _state (this w') = SERVO_READY
    /\ calls_after (thisIsHome Sample.started)
       = [setDirectionPin 27 27; setEnablePin 26 true; setAutoEnable false;
          disableOutputs; enableOutputs; setCurrentPosition (-250)].
Proof.
  assert (Hhome : Fp.to_int
                    (Fp.mul (Fp.neg (stepsPerMillimeter (_motor (this Sample.started))))
                            (keepoutBoundary (_physics (this Sample.started))))
                  = Some (-250)) by (vm_compute; reflexivity).
  destruct (thisIsHome_sets_reference Sample.started _ (-250) eq_refl Hhome)
    as [_ Hrun].
  destruct (Hrun ltac:(discriminate)) as [Hrun' _].
  eexists. split; [exact Hrun'|]. split; [reflexivity|]. split; [reflexivity|].
  rewrite Hrun'. reflexivity.
Defined.

(** ** What the fault state blocks *)

(** X11.  After [safeState] the engine is in ERROR with [isHomed] cleared
    and the outputs disabled, and in that world [startMotion], [stopMotion],
    [applyNewSettingsNow], [thisIsHome], [moveToMax] and [moveToMin] all
    fail or do nothing: each leaves the world exactly as it is. *)
Theorem safeState_blocks_motion (nextTarget : Pattern.t -> Z -> motionParameter)
    (speed : Fp.double) (w : world) (sv : FastAccelStepper) :
  servo w = Some sv ->
  exists w1 : world,
    safeState w = Some (tt, w1)
    /\ _state (this w1) = SERVO_ERROR
    /\ _isHomed (this w1) = false
    /\ servo w1 = Some (received disableOutputs sv)
    /\ startMotion w1 = Some (false, w1)
    /\ stopMotion w1 = Some (tt, w1)
    /\ applyNewSettingsNow nextTarget w1 = Some (false, w1)
    /\ thisIsHome w1 = Some (tt, w1)
    /\ moveToMax speed w1 = Some (false, w1)
    /\ moveToMin speed w1 = Some (false, w1).
Proof.
  intros Hsv.
  destruct (disable_connected w sv Hsv) as (w0 & Hdis & _ & Hhomed & Hsv0).
  exists (set_this (set_state SERVO_ERROR (this w0)) w0).
  split; [unfold safeState; rewrite (bind_Some _ _ _ _ _ Hdis); reflexivity|].
  split; [reflexivity|]. split; [exact Hhomed|]. split; [exact Hsv0|].
  split; [reflexivity|]. split; [reflexivity|]. split; [reflexivity|].
  split; [reflexivity|].
  split; unfold moveToMax, moveToMin, bind, self; cbn [this set_this];
    replace (_isHomed (set_state SERVO_ERROR (this w0))) with false
      by (symmetry; exact Hhomed); reflexivity.
Qed.

Lemma safeState_blocks_motion_witness :
  exists w1 : world,
    safeState Sample.ready = Some (tt, w1)
    /\ startMotion w1 = Some (false, w1)
    /\ moveToMax (Fp.Fin 10) w1 = Some (false, w1).
Proof.
  destruct (safeState_blocks_motion Sample.index_target (Fp.Fin 10) Sample.ready _ eq_refl)
    as (w1 & Hsafe & _ & _ & _ & Hstart & _ & _ & _ & Hmax & _).
  exists w1. repeat split; assumption.
Defined.

(** ** Moves to the ends of the travel *)

Lemma stopMotion_connected (w : world) (sv : FastAccelStepper) :
  servo w = Some sv ->
  exists sv',
    stopMotion w
    = Some (tt, set_this (set_state (if ServoState_eqb (_state (this w)) SERVO_RUNNING
                                     then SERVO_READY else _state (this w)) (this w))
                  (set_servo (Some sv') w))
    /\ sv' = (if ServoState_eqb (_state (this w)) SERVO_RUNNING
              then received stopMove
                     (received applySpeedAcceleration
                        (received (setAcceleration (_maxStepAcceleration (this w))) sv))
              else sv).
Proof.
  intros Hsv. eexists. split; [|reflexivity].
  destruct (ServoState_eqb (_state (this w)) SERVO_RUNNING) eqn:Hst.
  - apply stopMotion_running; [|exact Hsv].
    destruct (_state (this w)); try discriminate. reflexivity.
  - rewrite stopMotion_not_running
      by (intros Heq; rewrite Heq in Hst; discriminate).
    rewrite <- Hsv. destruct w as [e ? ? ? ?]. destruct e. reflexivity.
Qed.

(** X12.  Once homed, [moveToMax] and [moveToMin] succeed from every state:
    a running stroke is stopped first, the driver is sent the requested
    speed clamped to [1, maxStepPerSecond], one tenth of the maximum
    acceleration (clamped likewise) and, with [minStep <= maxStep], a move to
    exactly [maxStep] or [minStep]; the state ends READY. *)
Theorem moveTo_homed_reaches_limit (speed : Fp.double) (w : world)
    (sv : FastAccelStepper) (hz : Z) :
  _isHomed (this w) = true ->
  servo w = Some sv ->
  _minStep (this w) <= _maxStep (this w) ->
  Fp.to_int (Fp.mul speed (stepsPerMillimeter (_motor (this w)))) = Some hz ->
  let stopped :=
    if ServoState_eqb (_state (this w)) SERVO_RUNNING
    then received stopMove
           (received applySpeedAcceleration
              (received (setAcceleration (_maxStepAcceleration (this w))) sv))
    else sv in
  let sent (target : Z) :=
    received (moveTo target)
      (received (setAcceleration
                   (Arduino.constrain (Int32.div (_maxStepAcceleration (this w)) 10)
                                      1 (_maxStepAcceleration (this w))))
         (received (setSpeedInHz (Arduino.constrain hz 1 (_maxStepPerSecond (this w))))
                   stopped)) in
  moveToMax speed w
  = Some (true, set_this (set_state SERVO_READY (this w))
                  (set_servo (Some (sent (_maxStep (this w)))) w))
  /\ moveToMin speed w
     = Some (true, set_this (set_state SERVO_READY (this w))
                     (set_servo (Some (sent (_minStep (this w)))) w)).
Proof.
  intros Hhomed Hsv Hlim Hhz stopped sent.
  destruct (stopMotion_connected w sv Hsv) as (sv' & Hstop & Hsv').
  fold stopped in Hsv'. subst sv'.
  assert (Hmax : Arduino.constrain (_maxStep (this w)) (_minStep (this w))
                                   (_maxStep (this w)) = _maxStep (this w)).
  { unfold Arduino.constrain.
    destruct (Z.ltb_spec (_maxStep (this w)) (_minStep (this w))); [lia|].
    destruct (Z.gtb_spec (_maxStep (this w)) (_maxStep (this w))); [lia|reflexivity]. }
  assert (Hmin : Arduino.constrain (_minStep (this w)) (_minStep (this w))
                                   (_maxStep (this w)) = _minStep (this w)).
  { unfold Arduino.constrain.
    destruct (Z.ltb_spec (_minStep (this w)) (_minStep (this w))); [lia|].
    destruct (Z.gtb_spec (_minStep (this w)) (_maxStep (this w))); [lia|reflexivity]. }
  split.
  - unfold moveToMax. unfold bind at 1. unfold self. rewrite Hhomed.
    rewrite (bind_Some _ _ _ _ _ Hstop).
    unfold bind at 1. unfold lift. rewrite Hhz.
    erewrite bind_Some; [|apply applyMotionProfile_connected; reflexivity].
    unfold bind, update, ret. cbn. rewrite Hmax. reflexivity.
  - unfold moveToMin. unfold bind at 1. unfold self. rewrite Hhomed.
    rewrite (bind_Some _ _ _ _ _ Hstop).
    unfold bind at 1. unfold lift. rewrite Hhz.
    erewrite bind_Some; [|apply applyMotionProfile_connected; reflexivity].
    unfold bind, update, ret. cbn. rewrite Hmin. reflexivity.
Qed.

Lemma moveTo_homed_reaches_limit_witness :
  calls_after (moveToMax (Fp.Fin 10) (Sample.stroking 240000 100 1000))
  = [setAcceleration 240000; applySpeedAcceleration; stopMove;
     setSpeedInHz 500; setAcceleration 24000; moveTo 7500]
  /\ calls_after (moveToMin (Fp.Fin 10) (Sample.stroking 240000 100 1000))
     = [setAcceleration 240000; applySpeedAcceleration; stopMove;
        setSpeedInHz 500; setAcceleration 24000; moveTo 0].
Proof.
  pose (w := Sample.stroking 240000 100 1000).
  assert (Hhomed : _isHomed (this w) = true) by (vm_compute; reflexivity).
  assert (Hsv : servo w = Some {| isRunning := false; getCurrentPosition := 100;
                                  getCurrentSpeedInUs := 1000; calls := [] |})
    by (vm_compute; reflexivity).
  assert (Hlim : _minStep (this w) <= _maxStep (this w)) by (vm_compute; discriminate).
  assert (Hhz : Fp.to_int (Fp.mul (Fp.Fin 10) (stepsPerMillimeter (_motor (this w))))
                = Some 500) by (vm_compute; reflexivity).
  destruct (moveTo_homed_reaches_limit (Fp.Fin 10) w _ 500 Hhomed Hsv Hlim Hhz)
    as [Hmax Hmin].
  fold w. rewrite Hmax, Hmin. split; vm_compute; reflexivity.
Defined.

(** ** Disabling *)

(** X13.  [disable] always ends in DISABLED with [isHomed] false, the
    outputs disabled and no homing task handle, from whatever state it is
    called, and it leaves the motion parameters, the pattern selection and
    the stroking task handle alone.  After it the moves to the ends of the
    travel fail, and a stroking task still alive deletes itself at its next
    cycle. *)
Theorem disable_ends_motion (nextTarget : Pattern.t -> Z -> motionParameter)
    (speed : Fp.double) (w : world) (sv : FastAccelStepper) :
  servo w = Some sv ->
  let w' := set_this (set_taskHomingHandle false
                        (set_isHomed false (set_state SERVO_DISABLED (this w))))
              (set_servo (Some (received disableOutputs sv)) w) in
  disable w = Some (tt, w')
  /\ moveToMax speed w' = Some (false, w')
  /\ moveToMin speed w' = Some (false, w')
  /\ startMotion w' = Some (false, w')
  /\ _stroking_cycle nextTarget w'
     = Some (TaskDeleted, set_this (set_taskStrokingHandle false (this w')) w').
Proof.
  intros Hsv w'.
  split; [|repeat split].
  unfold disable, bind, update, servo_do, self, ret. cbn [servo set_this].
  rewrite Hsv. cbn [this set_this set_servo _taskHomingHandle set_isHomed set_state].
  subst w'. destruct (_taskHomingHandle (this w)) eqn:Hh; [reflexivity|].
  f_equal. f_equal. unfold set_this. f_equal.
  destruct (this w); simpl in *. subst. reflexivity.
Qed.

Lemma disable_ends_motion_witness :
  exists w' : world,
    disable (Sample.stroking 240000 100 1000) = Some (tt, w')
    /\ _state (this w') = SERVO_DISABLED
    /\ _isHomed (this w') = false
    /\ moveToMax (Fp.Fin 10) w' = Some (false, w').
Proof.
  destruct (disable_ends_motion Sample.index_target (Fp.Fin 10)
              (Sample.stroking 240000 100 1000)
              {| isRunning := false; getCurrentPosition := 100;
                 getCurrentSpeedInUs := 1000; calls := [] |}
              ltac:(vm_compute; reflexivity))
    as (Hdis & Hmax & _).
  eexists. split; [exact Hdis|]. split; [reflexivity|]. split; [reflexivity|].
  exact Hmax.
Defined.

(** ** A stepper that could not be connected *)

(** X14.  When [stepperConnectToPin] fails, [begin] still completes (it
    tests the pointer) and leaves the engine DISABLED with a null driver;
    but [disable], [safeState], [enableAndHome] and, outside ERROR,
    [thisIsHome] use the driver without testing it and have no defined
    result, while the setters and the refused [startMotion] and
    [moveToMax] never touch it. *)
Theorem begin_without_stepper (physics : machineGeometry) (motor : motorProperties)
    (w w' : world) (pin activeLow : Z) (speed : Fp.double) :
  begin physics motor None w = Some (tt, w') ->
  servo w' = None
  /\ _state (this w') = SERVO_DISABLED
  /\ disable w' = None
  /\ safeState w' = None
  /\ enableAndHome pin activeLow speed w' = None
  /\ thisIsHome w' = None
  /\ startMotion w' = Some (false, w')
  /\ moveToMax speed w' = Some (false, w').
Proof.
  intros Hbegin.
  assert (Hsv : servo w' = None).
  { revert Hbegin. unfold begin, bind, update, self, lift, ret. simpl.
    destruct (Fp.to_int _) as [maxStep|]; [|discriminate].
    destruct (Fp.to_int _) as [maxStepPerSecond|]; [|discriminate].
    destruct (Fp.to_int _) as [maxStepAcceleration|]; [|discriminate].
    intros H. inversion H. reflexivity. }
  destruct (begin_defaults _ _ _ _ _ Hbegin) as (Hst & Hhomed & _).
  assert (Hdis : disable w' = None).
  { unfold disable, bind, update, servo_do. cbn [servo set_this]. rewrite Hsv.
    reflexivity. }
  split; [exact Hsv|]. split; [exact Hst|]. split; [exact Hdis|].
  split; [unfold safeState; apply bind_None; exact Hdis|].
  split.
  { unfold enableAndHome. unfold bind at 1. unfold self. unfold bind at 1. unfold lift.
    destruct (Fp.to_int _); [|reflexivity].
    unfold bind at 1. unfold update at 1. unfold bind at 1. unfold pinMode_INPUT.
    rewrite bind_Some with (a := tt)
      (w' := set_inputPins (inputPins w' ++ [pin])
               (set_this (set_homeing pin activeLow z (this w')) w')).
    - apply bind_None. unfold servo_do. cbn [servo set_inputPins set_this].
      rewrite Hsv. reflexivity.
    - apply stopMotion_not_running. cbn. rewrite Hst. discriminate. }
  split.
  { unfold thisIsHome. unfold bind at 1. unfold self. rewrite Hst.
    cbn [ServoState_eqb negb]. apply bind_None. unfold servo_do. rewrite Hsv.
    reflexivity. }
  split.
  - unfold startMotion, bind, self. rewrite Hst. reflexivity.
  - unfold moveToMax, bind, self. rewrite Hhomed. reflexivity.
Qed.

Lemma begin_without_stepper_witness :
  exists w' : world,
    begin Sample.geometry Sample.motor None Sample.blank = Some (tt, w')
    /\ servo w' = None
    /\ disable w' = None.
Proof.
  assert (H : exists w', begin Sample.geometry Sample.motor None Sample.blank
                         = Some (tt, w')) by (eexists; vm_compute; reflexivity).
  destruct H as [w' H].
  destruct (begin_without_stepper _ _ _ _ 12 0 (Fp.Fin 5) H) as (Hsv & _ & Hdis & _).
  exists w'. repeat split; assumption.
Defined.

(** ** The homing task *)

Lemma calls_issue (cs : list servo_call) (sv : FastAccelStepper) :
  calls (issue cs sv) = calls sv ++ cs.
Proof.
  revert sv. induction cs as [|c cs IH]; intros sv; simpl.
  - symmetry. apply app_nil_r.
  - unfold issue in IH. rewrite IH. simpl. rewrite <- app_assoc. reflexivity.
Qed.

Lemma poll_homing_switch_all_high (SERVO_ENDSTOP : Z) (polls : list (Z -> bool))
    (w : world) :
  Forall (fun digitalRead => digitalRead SERVO_ENDSTOP = true) polls ->
  poll_homing_switch SERVO_ENDSTOP polls w = Some (tt, w).
Proof.
  induction 1 as [|r later Hr _ IH]; simpl; [reflexivity|].
  rewrite Hr. exact IH.
Qed.

Lemma poll_homing_switch_skips_high (SERVO_ENDSTOP : Z) (highs polls : list (Z -> bool))
    (w : world) :
  Forall (fun digitalRead => digitalRead SERVO_ENDSTOP = true) highs ->
  poll_homing_switch SERVO_ENDSTOP (highs ++ polls) w
  = poll_homing_switch SERVO_ENDSTOP polls w.
Proof.
  induction 1 as [|r later Hr _ IH]; simpl; [reflexivity|].
  rewrite Hr. exact IH.
Qed.

(** The homing task up to its polling loop. *)
Lemma homingProcedure_start (SERVO_ENDSTOP : Z) (digitalRead : Z -> bool)
    (polls : list (Z -> bool)) (w : world) (sv : FastAccelStepper)
    (back_off approach travel : Z) :
  servo w = Some sv ->
  Fp.to_int (Fp.mul (Fp.mul (stepsPerMillimeter (_motor (this w))) (Fp.of_int 2))
                    (keepoutBoundary (_physics (this w)))) = Some back_off ->
  Fp.to_int (Fp.mul (Fp.mul (Fp.neg (stepsPerMillimeter (_motor (this w)))) (Fp.of_int 4))
                    (keepoutBoundary (_physics (this w)))) = Some approach ->
  Fp.to_int (Fp.mul (Fp.neg (stepsPerMillimeter (_motor (this w))))
                    (physicalTravel (_physics (this w)))) = Some travel ->
  _homingProcedure SERVO_ENDSTOP digitalRead polls w
  = (poll_homing_switch SERVO_ENDSTOP polls ;; homing_finish)
      (set_servo
         (Some (issue ([setSpeedInHz (_homeingSpeed (this w));
                        setAcceleration (Int32.div (_maxStepAcceleration (this w)) 10)]
                       ++ homing_moves
                            (Bool.eqb (digitalRead SERVO_ENDSTOP)
                                      (_homeingActiveLow (this w) =? 0))
                            back_off approach travel) sv))
         w).
Proof.
  intros Hsv Hback Happroach Htravel.
  unfold _homingProcedure. unfold bind at 1. unfold self.
  rewrite (bind_Some _ _ _ _ _ (servo_do_connected _ w sv Hsv)).
  erewrite bind_Some; [|apply servo_do_connected; reflexivity].
  destruct (Bool.eqb (digitalRead SERVO_ENDSTOP) (_homeingActiveLow (this w) =? 0)).
  - unfold bind at 1. unfold bind at 1. unfold lift. rewrite Hback.
    erewrite bind_Some; [|apply servo_do_connected; reflexivity].
    unfold bind at 1. rewrite Happroach.
    erewrite servo_do_connected; [|reflexivity].
    reflexivity.
  - unfold bind at 1. unfold bind at 1. unfold lift. rewrite Htravel.
    erewrite servo_do_connected; [|reflexivity].
    reflexivity.
Qed.

Lemma homing_finish_connected (w : world) (sv : FastAccelStepper) :
  servo w = Some sv ->
  homing_finish w
  = Some (tt,
          set_this (set_taskHomingHandle false
                      (set_state (if _isHomed (this w) then SERVO_READY
                                  else SERVO_DISABLED) (this w)))
            (set_homingCallbacks
               (homingCallbacks w
                ++ (if _callBackHomeing (this w) then [_isHomed (this w)] else []))
               (set_servo (Some (if _isHomed (this w) then sv
                                 else received disableOutputs sv)) w))).
Proof.
  intros Hsv. unfold homing_finish, bind, self, servo_do, update, call_back, ret.
  destruct (_isHomed (this w)) eqn:Hh; cbn [negb]; [|rewrite Hsv];
    cbn [this set_this set_servo servo set_state _callBackHomeing _isHomed];
    destruct (_callBackHomeing (this w)) eqn:Hc;
    cbn [this set_this set_servo servo set_state _callBackHomeing _isHomed
         homingCallbacks set_homingCallbacks];
    rewrite ?Hh, ?app_nil_r; try reflexivity.
  - rewrite <- Hsv. destruct w; reflexivity.
  - rewrite <- Hsv. destruct w; reflexivity.
Qed.

(** X15.  A homing run during which no poll reads LOW at the endstop pin
    ends without the axis being referenced: it issues the homing speed, one
    tenth of the maximum acceleration and the moves of its branch (back off
    by twice the keepout and approach by four times it when the start check
    finds the switch, the full physical travel toward the switch
    otherwise), leaves [isHomed] as it found it, reports that value to the
    callback and clears the task handle.  When [isHomed] was false it
    disables the outputs and ends DISABLED; when it was still true from an
    earlier homing, which [enableAndHome] does not clear, it ends READY. *)
Theorem homing_without_activation (SERVO_ENDSTOP : Z) (digitalRead : Z -> bool)
    (polls : list (Z -> bool)) (w : world) (sv : FastAccelStepper)
    (back_off approach travel : Z) :
  servo w = Some sv ->
  Forall (fun r => r SERVO_ENDSTOP = true) polls ->
  Fp.to_int (Fp.mul (Fp.mul (stepsPerMillimeter (_motor (this w))) (Fp.of_int 2))
                    (keepoutBoundary (_physics (this w)))) = Some back_off ->
  Fp.to_int (Fp.mul (Fp.mul (Fp.neg (stepsPerMillimeter (_motor (this w)))) (Fp.of_int 4))
                    (keepoutBoundary (_physics (this w)))) = Some approach ->
  Fp.to_int (Fp.mul (Fp.neg (stepsPerMillimeter (_motor (this w))))
                    (physicalTravel (_physics (this w)))) = Some travel ->
  exists w' : world,
    _homingProcedure SERVO_ENDSTOP digitalRead polls w = Some (tt, w')
    /\ _isHomed (this w') = _isHomed (this w)
    /\ _state (this w') = (if _isHomed (this w) then SERVO_READY else SERVO_DISABLED)
    /\ _taskHomingHandle (this w') = false
    /\ homingCallbacks w'
       = homingCallbacks w
         ++ (if _callBackHomeing (this w) then [_isHomed (this w)] else [])
    /\ calls_after (Some (tt, w'))
       = calls sv
         ++ [setSpeedInHz (_homeingSpeed (this w));
             setAcceleration (Int32.div (_maxStepAcceleration (this w)) 10)]
         ++ homing_moves (Bool.eqb (digitalRead SERVO_ENDSTOP)
                                   (_homeingActiveLow (this w) =? 0))
                         back_off approach travel
         ++ (if _isHomed (this w) then [] else [disableOutputs]).
Proof.
  intros Hsv Hhigh Hback Happroach Htravel.
  rewrite (homingProcedure_start SERVO_ENDSTOP digitalRead polls w sv
             back_off approach travel Hsv Hback Happroach Htravel).
  rewrite (bind_Some _ _ _ _ _ (poll_homing_switch_all_high SERVO_ENDSTOP polls _ Hhigh)).
  erewrite homing_finish_connected; [|reflexivity].
  eexists. split; [reflexivity|].
  cbn [this set_this set_servo set_homingCallbacks homingCallbacks
       _isHomed _state _taskHomingHandle set_taskHomingHandle set_state
       _callBackHomeing calls_after servo].
  split; [reflexivity|]. split; [reflexivity|]. split; [reflexivity|].
  split; [reflexivity|].
  destruct (_isHomed (this w)).
  - rewrite calls_issue, ?app_nil_r, <- ?app_assoc. reflexivity.
  - cbn [calls received]. rewrite calls_issue, <- ?app_assoc. reflexivity.
Qed.

Lemma homing_without_activation_witness :
  exists w' : world,
    _homingProcedure 12 (fun _ => false) [fun _ => true; fun _ => true] Sample.homing
    = Some (tt, w')
    /\ _state (this w') = SERVO_DISABLED
    /\ _isHomed (this w') = false
    /\ calls_after (Some (tt, w'))
       = [setDirectionPin 27 27; setEnablePin 26 true; setAutoEnable false;
          disableOutputs; enableOutputs;
          setSpeedInHz 250; setAcceleration 24000; move (-8000); disableOutputs].
Proof.
  pose (sv := {| isRunning := false; getCurrentPosition := 0; getCurrentSpeedInUs := 0;
                 calls := [setDirectionPin 27 27; setEnablePin 26 true;
                           setAutoEnable false; disableOutputs; enableOutputs] |}).
  assert (Hsv : servo Sample.homing = Some sv) by reflexivity.
  assert (Hhigh : Forall (fun r : Z -> bool => r 12 = true)
                         [fun _ => true; fun _ => true])
    by (repeat constructor).
  assert (Hback : Fp.to_int
                    (Fp.mul (Fp.mul (stepsPerMillimeter (_motor (this Sample.homing)))
                                    (Fp.of_int 2))
                            (keepoutBoundary (_physics (this Sample.homing))))
                  = Some 500) by (vm_compute; reflexivity).
  assert (Happroach : Fp.to_int
                        (Fp.mul (Fp.mul (Fp.neg (stepsPerMillimeter
                                                   (_motor (this Sample.homing))))
                                        (Fp.of_int 4))
                                (keepoutBoundary (_physics (this Sample.homing))))
                      = Some (-1000)) by (vm_compute; reflexivity).
  assert (Htravel : Fp.to_int
                      (Fp.mul (Fp.neg (stepsPerMillimeter (_motor (this Sample.homing))))
                              (physicalTravel (_physics (this Sample.homing))))
                    = Some (-8000)) by (vm_compute; reflexivity).
  destruct (homing_without_activation 12 (fun _ => false)
              [fun _ => true; fun _ => true] Sample.homing sv 500 (-1000) (-8000)
              Hsv Hhigh Hback Happroach Htravel)
    as (w' & Hrun & Hhomed & Hstate & _ & _ & Hcalls).
  exists w'. split; [exact Hrun|]. split; [exact Hstate|]. split; [exact Hhomed|].
  rewrite Hcalls. reflexivity.
Defined.

(** X16.  The polling loop stops at the first poll that reads LOW at the
    endstop pin and ignores every later reading: the driver is force-stopped
    with its position reassigned to the switch location (minus the keepout
    boundary, in steps), a move to zero is issued, [isHomed] becomes true,
    the state becomes READY from whatever state the task started in (ERROR
    included), a registered callback is called with true and the task
    handle is cleared. *)
Theorem homing_stops_at_first_low (SERVO_ENDSTOP : Z) (digitalRead low : Z -> bool)
    (highs later : list (Z -> bool)) (w : world) (sv : FastAccelStepper)
    (back_off approach travel switch_at : Z) :
  servo w = Some sv ->
  Forall (fun r => r SERVO_ENDSTOP = true) highs ->
  low SERVO_ENDSTOP = false ->
  Fp.to_int (Fp.mul (Fp.mul (stepsPerMillimeter (_motor (this w))) (Fp.of_int 2))
                    (keepoutBoundary (_physics (this w)))) = Some back_off ->
  Fp.to_int (Fp.mul (Fp.mul (Fp.neg (stepsPerMillimeter (_motor (this w)))) (Fp.of_int 4))
                    (keepoutBoundary (_physics (this w)))) = Some approach ->
  Fp.to_int (Fp.mul (Fp.neg (stepsPerMillimeter (_motor (this w))))
                    (physicalTravel (_physics (this w)))) = Some travel ->
  Fp.to_int (Fp.mul (Fp.neg (stepsPerMillimeter (_motor (this w))))
                    (keepoutBoundary (_physics (this w)))) = Some switch_at ->
  exists (w' : world) (sv' : FastAccelStepper),
    _homingProcedure SERVO_ENDSTOP digitalRead (highs ++ low :: later) w = Some (tt, w')
    /\ _isHomed (this w') = true
    /\ _state (this w') = SERVO_READY
    /\ _taskHomingHandle (this w') = false
    /\ homingCallbacks w'
       = homingCallbacks w ++ (if _callBackHomeing (this w) then [true] else [])
    /\ servo w' = Some sv'
    /\ getCurrentPosition sv' = switch_at
    /\ calls sv'
       = calls sv
         ++ [setSpeedInHz (_homeingSpeed (this w));
             setAcceleration (Int32.div (_maxStepAcceleration (this w)) 10)]
         ++ homing_moves (Bool.eqb (digitalRead SERVO_ENDSTOP)
                                   (_homeingActiveLow (this w) =? 0))
                         back_off approach travel
         ++ [forceStopAndNewPosition switch_at; moveTo 0].
Proof.
  intros Hsv Hhigh Hlow Hback Happroach Htravel Hat.
  rewrite (homingProcedure_start SERVO_ENDSTOP digitalRead _ w sv
             back_off approach travel Hsv Hback Happroach Htravel).
  unfold bind at 1.
  rewrite (poll_homing_switch_skips_high SERVO_ENDSTOP highs _ _ Hhigh).
  erewrite poll_homing_switch_low; [|reflexivity | exact Hlow | exact Hat].
  erewrite homing_finish_connected; [|reflexivity].
  eexists _, _. split; [reflexivity|].
  cbn [this set_this set_servo set_homingCallbacks homingCallbacks
       _isHomed _state _taskHomingHandle set_taskHomingHandle set_state set_isHomed
       _callBackHomeing servo].
  split; [reflexivity|]. split; [reflexivity|]. split; [reflexivity|].
  split; [reflexivity|]. split; [reflexivity|]. split; [reflexivity|].
  cbn [calls received]. rewrite calls_issue, <- ?app_assoc. reflexivity.
Qed.

Lemma homing_stops_at_first_low_witness :
  exists (w' : world) (sv' : FastAccelStepper),
    _homingProcedure 12 (fun _ => false)
      [fun _ => true; fun _ => false; fun _ => true] Sample.homing = Some (tt, w')
    /\ _isHomed (this w') = true
    /\ servo w' = Some sv'
    /\ getCurrentPosition sv' = -250.
Proof.
  pose (sv := {| isRunning := false; getCurrentPosition := 0; getCurrentSpeedInUs := 0;
                 calls := [setDirectionPin 27 27; setEnablePin 26 true;
                           setAutoEnable false; disableOutputs; enableOutputs] |}).
  assert (Hsv : servo Sample.homing = Some sv) by reflexivity.
  assert (Hhigh : Forall (fun r : Z -> bool => r 12 = true) [fun _ => true])
    by (repeat constructor).
  assert (Hback : Fp.to_int
                    (Fp.mul (Fp.mul (stepsPerMillimeter (_motor (this Sample.homing)))
                                    (Fp.of_int 2))
                            (keepoutBoundary (_physics (this Sample.homing))))
                  = Some 500) by (vm_compute; reflexivity).
  assert (Happroach : Fp.to_int
                        (Fp.mul (Fp.mul (Fp.neg (stepsPerMillimeter
                                                   (_motor (this Sample.homing))))
                                        (Fp.of_int 4))
                                (keepoutBoundary (_physics (this Sample.homing))))
                      = Some (-1000)) by (vm_compute; reflexivity).
  assert (Htravel : Fp.to_int
                      (Fp.mul (Fp.neg (stepsPerMillimeter (_motor (this Sample.homing))))
                              (physicalTravel (_physics (this Sample.homing))))
                    = Some (-8000)) by (vm_compute; reflexivity).
  assert (Hat : Fp.to_int
                  (Fp.mul (Fp.neg (stepsPerMillimeter (_motor (this Sample.homing))))
                          (keepoutBoundary (_physics (this Sample.homing))))
                = Some (-250)) by (vm_compute; reflexivity).
  destruct (homing_stops_at_first_low 12 (fun _ => false) (fun _ => false)
              [fun _ => true] [fun _ => true] Sample.homing sv 500 (-1000) (-8000) (-250)
              Hsv Hhigh eq_refl Hback Happroach Htravel Hat)
    as (w' & sv' & Hrun & Hhomed & _ & _ & _ & Hsv' & Hpos & _).
  exists w', sv'. repeat split; assumption.
Defined.

(** X17.  [enableAndHome] stores the pin, the polarity and the homing speed
    in steps per second, makes the pin an input, enables the outputs and
    creates the homing task.  A running stroke is stopped first and the
    state becomes READY; any other state, ERROR included, is kept, and
    [isHomed] is not cleared. *)
Theorem enableAndHome_prepares (pin activeLow : Z) (speed : Fp.double) (w : world)
    (sv : FastAccelStepper) (hz : Z) :
  servo w = Some sv ->
  Fp.to_int (Fp.mul speed (stepsPerMillimeter (_motor (this w)))) = Some hz ->
  exists (w' : world) (sv' : FastAccelStepper),
    enableAndHome pin activeLow speed w = Some (tt, w')
    /\ _homeingPin (this w') = pin
    /\ _homeingActiveLow (this w') = activeLow
    /\ _homeingSpeed (this w') = hz
    /\ inputPins w' = inputPins w ++ [pin]
    /\ _taskHomingHandle (this w') = true
    /\ _isHomed (this w') = _isHomed (this w)
    /\ _state (this w')
       = (if ServoState_eqb (_state (this w)) SERVO_RUNNING
          then SERVO_READY else _state (this w))
    /\ servo w' = Some sv'
    /\ calls sv'
       = calls sv
         ++ (if ServoState_eqb (_state (this w)) SERVO_RUNNING
             then [setAcceleration (_maxStepAcceleration (this w));
                   applySpeedAcceleration; stopMove]
             else [])
         ++ [enableOutputs].
Proof.
  intros Hsv Hhz.
  unfold enableAndHome. unfold bind at 1. unfold self. unfold bind at 1. unfold lift.
  rewrite Hhz. unfold bind at 1. unfold update at 1. unfold bind at 1.
  unfold pinMode_INPUT.
  set (w1 := set_inputPins (inputPins w ++ [pin])
               (set_this (set_homeing pin activeLow hz (this w)) w)).
  destruct (stopMotion_connected w1 sv Hsv) as (sv1 & Hstop & Hsv1).
  rewrite (bind_Some _ _ _ _ _ Hstop).
  erewrite bind_Some; [|apply servo_do_connected; reflexivity].
  eexists _, _. split; [reflexivity|].
  cbn [this set_this set_servo servo w1 set_inputPins inputPins
       _homeingPin _homeingActiveLow _homeingSpeed _taskHomingHandle _isHomed _state
       set_taskHomingHandle set_state set_homeing].
  split; [reflexivity|]. split; [reflexivity|]. split; [reflexivity|].
  split; [reflexivity|]. split; [reflexivity|]. split; [reflexivity|].
  split; [reflexivity|]. split; [reflexivity|].
  subst sv1.
  cbn [this set_this w1 set_inputPins _state set_homeing _maxStepAcceleration].
  destruct (ServoState_eqb (_state (this w)) SERVO_RUNNING); cbn [calls received].
  - rewrite <- !app_assoc. reflexivity.
  - rewrite app_nil_l. reflexivity.
Qed.

Lemma enableAndHome_prepares_witness :
  exists (w' : world),
    enableAndHome 12 0 (Fp.Fin 5) (Sample.stroking 240000 100 1000) = Some (tt, w')
    /\ _state (this w') = SERVO_READY
    /\ _isHomed (this w') = true
    /\ calls_after (Some (tt, w'))
       = [setAcceleration 240000; applySpeedAcceleration; stopMove; enableOutputs].
Proof.
  pose (w := Sample.stroking 240000 100 1000).
  assert (Hsv : servo w = Some {| isRunning := false; getCurrentPosition := 100;
                                  getCurrentSpeedInUs := 1000; calls := [] |})
    by (vm_compute; reflexivity).
  assert (Hhz : Fp.to_int (Fp.mul (Fp.Fin 5) (stepsPerMillimeter (_motor (this w))))
                = Some 250) by (vm_compute; reflexivity).
  destruct (enableAndHome_prepares 12 0 (Fp.Fin 5) w _ 250 Hsv Hhz)
    as (w' & sv' & Hrun & _ & _ & _ & _ & _ & Hhomed & Hstate & Hsv' & Hcalls).
  exists w'. split; [exact Hrun|]. split; [exact Hstate|]. split; [exact Hhomed|].
  unfold calls_after. rewrite Hsv', Hcalls. reflexivity.
Defined.

(** ** The pattern listing *)

Lemma string_append_assoc (a b c : string) :
  ((a ++ b) ++ c)%string = (a ++ (b ++ c))%string.
Proof. induction a as [|x a IH]; simpl; [reflexivity | rewrite IH; reflexivity]. Qed.

Lemma getPatternJSON_from_entries (patterns : list Pattern.t) :
  patterns <> [] ->
  forall (i : nat) (JSON : string),
    getPatternJSON_from i (i + length patterns) patterns JSON
    = (JSON ++ listing_entries i patterns ++ "}]")%string.
Proof.
  induction patterns as [|p later IH]; [congruence|].
  intros _ i JSON. destruct later as [|p' later'].
  - simpl. replace (i <? i + 1 - 1)%nat with false
      by (symmetry; apply Nat.ltb_ge; lia).
    unfold listing_entry. rewrite !string_append_assoc. reflexivity.
  - change (getPatternJSON_from i (i + length (p :: p' :: later')) (p :: p' :: later') JSON)
      with (getPatternJSON_from (S i) (i + length (p :: p' :: later')) (p' :: later')
              (if (i <? i + length (p :: p' :: later') - 1)%nat
               then (((JSON ++ Pattern._name p) ++ (quote ++ ": ")) ++ String_DEC i)
                    ++ ("},{" ++ quote)
               else (((JSON ++ Pattern._name p) ++ (quote ++ ": ")) ++ String_DEC i)
                    ++ "}]")%string).
    replace (i <? i + length (p :: p' :: later') - 1)%nat with true
      by (symmetry; apply Nat.ltb_lt; simpl; lia).
    replace (i + length (p :: p' :: later'))%nat
      with (S i + length (p' :: later'))%nat by (simpl; lia).
    rewrite IH by discriminate.
    change (listing_entries i (p :: p' :: later'))
      with (listing_entry i p ++ ("},{" ++ quote)
            ++ listing_entries (S i) (p' :: later'))%string.
    unfold listing_entry. rewrite !string_append_assoc. reflexivity.
Qed.

(** X18.  [getPatternJSON] lists every pattern of the table once, in table
    order: after the opening bracket, brace and quote come the entries, each
    a name, a quote, a colon and the pattern's index in decimal, separated
    by a closing brace, a comma, an opening brace and a quote, and the text
    ends with a closing brace and bracket.  For an empty table the loop does
    not run and the result is the opening text alone, which is never
    closed. *)
Theorem getPatternJSON_lists_table (w : world) :
  (patternTable w = [] -> getPatternJSON w = ("[{" ++ quote)%string)
  /\ (patternTable w <> [] ->
      getPatternJSON w
      = (("[{" ++ quote) ++ listing_entries 0 (patternTable w) ++ "}]")%string).
Proof.
  unfold getPatternJSON. split.
  - intros ->. reflexivity.
  - intros Hne. apply (getPatternJSON_from_entries (patternTable w) Hne 0%nat).
Qed.

Lemma getPatternJSON_lists_table_witness :
  getPatternJSON Sample.started
  = (("[{" ++ quote)
     ++ ("Simple Stroke" ++ quote ++ ": 0" ++ "},{" ++ quote
         ++ "Teasing or Pounding" ++ quote ++ ": 1" ++ "},{" ++ quote
         ++ "Robo Stroke" ++ quote ++ ": 2")
     ++ "}]")%string.
Proof.
  rewrite (proj2 (getPatternJSON_lists_table Sample.started)) by discriminate.
  vm_compute. reflexivity.
Defined.

(** ** Limits derived by [begin] *)

Lemma trunc_nonneg (q : Q) : (0 <= q)%Q -> 0 <= Fp.trunc q.
Proof.
  unfold Qle, Fp.trunc. simpl. intros H.
  apply Z.quot_pos; lia.
Qed.

Lemma trunc_below (q : Q) (n : Z) :
  (0 <= q)%Q -> (q < inject_Z (n + 1))%Q -> Fp.trunc q <= n.
Proof.
  unfold Qle, Qlt, Fp.trunc. simpl. intros H0 Hlt.
  rewrite Z.quot_div_nonneg by lia.
  assert (Qnum q / Z.pos (Qden q) < n + 1)
    by (apply Z.div_lt_upper_bound; lia).
  lia.
Qed.

(** ** Accuracy of the crash-avoidance deceleration *)

(** X20.  For a positive distance and a speed whose square fits an [int],
    the minimum deceleration is defined and is the exact value
    [currentSpeed^2 / (2 * distanceToCrash)] rounded to the nearest integer:
    it is never more than one half above the exact value and may be up to
    one half below it, in which case it does not suffice to stop within the
    distance. *)
Theorem minimumDeceleration_within_half (currentSpeed distanceToCrash : Z) :
  0 < distanceToCrash ->
  currentSpeed * currentSpeed <= Int32.max_int ->
  exists md : Z,
    minimumDeceleration_of currentSpeed distanceToCrash = Some md
    /\ currentSpeed * currentSpeed - distanceToCrash < 2 * distanceToCrash * md
    /\ 2 * distanceToCrash * md <= currentSpeed * currentSpeed + distanceToCrash
    /\ 0 <= md.
Proof.
  intros Hd Hv. eexists. split; [apply minimumDeceleration_rounds; assumption|].
  pose proof (Z.div_mod (currentSpeed * currentSpeed + distanceToCrash)
                (2 * distanceToCrash) ltac:(lia)) as Hdm.
  pose proof (Z.mod_pos_bound (currentSpeed * currentSpeed + distanceToCrash)
                (2 * distanceToCrash) ltac:(lia)) as Hmod.
  split; [lia|]. split; [lia|].
  apply Z.div_pos; nia.
Qed.

Lemma minimumDeceleration_within_half_witness :
  exists md : Z,
    minimumDeceleration_of 7 20 = Some md
    /\ 2 * 20 * md < 7 * 7.
Proof.
  destruct (minimumDeceleration_within_half 7 20 ltac:(lia)
              ltac:(vm_compute; discriminate))
    as (md & Hmd & _ & _ & _).
  exists md. split; [exact Hmd|].
  assert (Hval : Some md = Some 1) by (rewrite <- Hmd; vm_compute; reflexivity).
  injection Hval as ->. lia.
Defined.

Lemma trunc_opposite_signs (a : Z) (p : positive) :
  0 <= a ->
  - a <= Fp.trunc (inject_Z a / (2 * inject_Z (Z.neg p)) + (1 # 2)) <= 0.
Proof.
  intros Ha. unfold Fp.trunc, Qdiv, Qmult, Qinv, Qplus, inject_Z. simpl.
  replace (a * Z.neg (1 * 1) * 2 + 1 * Z.pos (1 * (2 * p)))
    with (2 * Z.pos p - 2 * a) by lia.
  replace (Z.pos (1 * (2 * p) * 2)) with (4 * Z.pos p) by lia.
  destruct (Z.le_gt_cases 0 (2 * Z.pos p - 2 * a)) as [Hpos|Hneg].
  - rewrite Z.quot_small by lia. lia.
  - replace (2 * Z.pos p - 2 * a) with (- (2 * a - 2 * Z.pos p)) by lia.
    rewrite Z.quot_opp_l by lia.
    rewrite Z.quot_div_nonneg by lia.
    assert (0 <= (2 * a - 2 * Z.pos p) / (4 * Z.pos p)) by (apply Z.div_pos; lia).
    assert ((2 * a - 2 * Z.pos p) / (4 * Z.pos p) <= a)
      by (apply Z.div_le_upper_bound; nia).
    lia.
Qed.

(** X21.  Past the boundary the override is void: when the axis is already
    beyond [maxStep] while moving forward, so that the distance to the
    boundary is negative, the minimum deceleration comes out zero or
    negative and every non-negative acceleration asked by the pattern is
    kept as it is. *)
Theorem no_override_past_boundary (e : StrokeEngine) (currentSpeed pos : Z) :
  0 < currentSpeed ->
  currentSpeed * currentSpeed <= Int32.max_int ->
  _maxStep e < pos ->
  Int32.min_int <= _maxStep e - pos ->
  exists md : Z,
    distanceToCrash_of e currentSpeed pos < 0
    /\ minimumDeceleration_of currentSpeed (distanceToCrash_of e currentSpeed pos)
       = Some md
    /\ md <= 0
    /\ forall requested : Z, 0 <= requested -> Arduino.max requested md = requested.
Proof.
  intros Hv Hsq Hpast Hfit.
  assert (Hd : distanceToCrash_of e currentSpeed pos = _maxStep e - pos).
  { unfold distanceToCrash_of. destruct (Z.gtb_spec currentSpeed 0); [|lia].
    apply wrap_id. unfold Int32.max_int. lia. }
  rewrite Hd.
  destruct (_maxStep e - pos) as [|p|p] eqn:Hdp; try lia.
  unfold minimumDeceleration_of, crash_divisor. rewrite (sq_small _ Hsq).
  cbn -[Z.mul Z.add Z.quot Int32.in_range].
  replace (Qeq_bool (2 * inject_Z (Z.neg p)) 0) with false by reflexivity.
  cbn -[Z.mul Z.add Z.quot Z.div Int32.in_range].
  pose proof (trunc_opposite_signs (currentSpeed * currentSpeed) p ltac:(nia)) as Ht.
  rewrite in_range_true
    by (unfold Int32.min_int, Int32.max_int in *; lia).
  eexists. split; [lia|]. split; [reflexivity|]. split; [lia|].
  intros requested Hreq. unfold Arduino.max.
  destruct (Z.gtb_spec requested
              (Fp.trunc (inject_Z (currentSpeed * currentSpeed)
                         / (2 * inject_Z (Z.neg p)) + (1 # 2)))); lia.
Qed.

Lemma no_override_past_boundary_witness :
  exists md : Z,
    minimumDeceleration_of 1000
      (distanceToCrash_of (this (Sample.stroking 240000 7600 1000)) 1000 7600) = Some md
    /\ Arduino.max 100 md = 100.
Proof.
  destruct (no_override_past_boundary (this (Sample.stroking 240000 7600 1000)) 1000 7600
              ltac:(lia) ltac:(vm_compute; discriminate)
              ltac:(vm_compute; reflexivity) ltac:(vm_compute; discriminate))
    as (md & _ & Hmd & _ & Hmax).
  exists md. split; [exact Hmd | apply Hmax; lia].
Defined.

(** ** The speed read from the driver *)

Lemma currentSpeed_of_positive_period (speedInUs : Z) :
  0 < speedInUs ->
  currentSpeed_of speedInUs = Some ((2000000 + speedInUs) / (2 * speedInUs)).
Proof.
  intros Hus. unfold currentSpeed_of. destruct speedInUs as [|p|p]; try lia.
  cbn -[Z.mul Z.add Z.quot Int32.in_range].
  replace (Qeq_bool (inject_Z (Z.pos p)) 0) with false by reflexivity.
  cbn -[Z.mul Z.add Z.quot Z.div Int32.in_range].
  assert (Ht : Fp.trunc (1000000 / inject_Z (Z.pos p) + (1 # 2))
               = (2000000 + Z.pos p) / (2 * Z.pos p)).
  { unfold Fp.trunc, Qdiv, Qmult, Qinv, Qplus, inject_Z. simpl.
    rewrite Z.quot_div_nonneg by lia.
    replace (1000000 * 1 * 2 + 1 * Z.pos (1 * p)) with (2000000 + Z.pos p) by lia.
    replace (Z.pos (1 * p * 2)) with (2 * Z.pos p) by lia. reflexivity. }
  rewrite Ht. rewrite in_range_true; [reflexivity|].
  unfold Int32.min_int, Int32.max_int.
  assert (0 <= (2000000 + Z.pos p) / (2 * Z.pos p)) by (apply Z.div_pos; lia).
  assert ((2000000 + Z.pos p) / (2 * Z.pos p) <= 2000000 + Z.pos p)
    by (apply Z.div_le_upper_bound; nia).
  assert ((2000000 + Z.pos p) / (2 * Z.pos p) < 1000002)
    by (apply Z.div_lt_upper_bound; lia).
  lia.
Qed.

(** X22.  The current speed is one million over the step period the driver
    reports, rounded to the nearest integer: for a positive period it is
    defined and not negative, and it is 0 exactly when the period exceeds two
    seconds.  For a period of 0 the source divides by zero and the speed has
    no defined value, so a cycle of the stroking task that finds the driver
    idle and reporting a period of 0 has no defined outcome. *)
Theorem currentSpeed_from_period (nextTarget : Pattern.t -> Z -> motionParameter)
    (speedInUs : Z) :
  (0 < speedInUs ->
   exists v : Z,
     currentSpeed_of speedInUs = Some v
     /\ 0 <= v
     /\ (v = 0 <-> 2000000 < speedInUs))
  /\ currentSpeed_of 0 = None
  /\ (forall (w : world) (sv : FastAccelStepper) (p : Pattern.t),
         _state (this w) = SERVO_RUNNING ->
         servo w = Some sv -> isRunning sv = false ->
         selected w p ->
         getCurrentSpeedInUs sv = 0 ->
         _stroking_cycle nextTarget w = None).
Proof.
  split; [|split].
  - intros Hus. eexists. split; [apply currentSpeed_of_positive_period; exact Hus|].
    split; [apply Z.div_pos; lia|]. split.
    + intros Hz.
      destruct (Z.le_gt_cases speedInUs 2000000) as [Hle|Hgt]; [|lia].
      assert (1 <= (2000000 + speedInUs) / (2 * speedInUs))
        by (apply Z.div_le_lower_bound; lia).
      lia.
    + intros Hgt. apply Z.div_small. lia.
  - reflexivity.
  - intros w sv p Hst Hsv Hidle [Hi Hp] Hzero.
    rewrite (stroking_cycle_idle nextTarget w sv Hst Hsv Hidle).
    rewrite (bind_Some _ _ _ _ _ (next_motion_valid nextTarget w p Hi Hp)).
    apply bind_None. unfold avoid_crash, bind, self, servo_get, lift.
    cbn [servo set_this]. rewrite Hsv, Hzero. reflexivity.
Qed.

Lemma currentSpeed_from_period_witness :
  currentSpeed_of 1000 = Some 1000
  /\ _stroking_cycle Sample.index_target (Sample.stroking 240000 100 0) = None.
Proof.
  destruct (currentSpeed_from_period Sample.index_target 1000) as (Hpos & _ & Hcycle).
  split.
  - destruct (Hpos ltac:(lia)) as (v & Hv & _). rewrite Hv.
    assert (Hval : Some v = Some 1000) by (rewrite <- Hv; vm_compute; reflexivity).
    exact Hval.
  - pose (w := Sample.stroking 240000 100 0).
    assert (Hsel : selected w (Sample.pattern "Simple Stroke"))
      by (split; [vm_compute; discriminate | vm_compute; reflexivity]).
    apply (Hcycle w {| isRunning := false; getCurrentPosition := 100;
                       getCurrentSpeedInUs := 0; calls := [] |}
             (Sample.pattern "Simple Stroke"));
      first [exact Hsel | vm_compute; reflexivity].
Defined.

(** ** The limits of a sound configuration *)

Lemma trunc_at_least (q : Q) (n : Z) :
  (inject_Z n <= q)%Q -> 0 <= n -> n <= Fp.trunc q.
Proof.
  unfold Qle, Fp.trunc. simpl. intros Hle Hn.
  rewrite Z.quot_div_nonneg by nia.
  apply Z.div_le_lower_bound; lia.
Qed.

(** [int(0.5 + x)] for a quantity between 0 and 2^30. *)
Lemma to_int_rounded (x : Q) :
  (0 <= x)%Q -> (x <= inject_Z (2 ^ 30))%Q ->
  exists n : Z,
    Fp.to_int (Fp.Fin ((1 # 2) + x)) = Some n
    /\ 0 <= n
    /\ ((1 <= x)%Q -> 1 <= n).
Proof.
  intros H0 Hhi.
  assert (Hq0 : (0 <= (1 # 2) + x)%Q).
  { apply (Qle_trans _ (0 + 0)); [discriminate|].
    apply Qplus_le_compat; [discriminate | exact H0]. }
  exists (Fp.trunc ((1 # 2) + x)).
  pose proof (trunc_nonneg _ Hq0) as Hn0.
  split.
  - unfold Fp.to_int. rewrite in_range_true; [reflexivity|].
    split; [unfold Int32.min_int; lia|].
    assert (Fp.trunc ((1 # 2) + x) <= 2 ^ 30).
    { apply trunc_below; [exact Hq0|].
      rewrite inject_Z_plus.
      apply (Qlt_le_trans _ (inject_Z 1 + x)).
      - apply Qplus_lt_l. reflexivity.
      - rewrite Qplus_comm. apply Qplus_le_l. exact Hhi. }
    unfold Int32.max_int. lia.
  - split; [exact Hn0|]. intros H1.
    apply trunc_at_least; [|lia].
    apply (Qle_trans _ (0 + 1)); [discriminate|].
    apply Qplus_le_compat; [discriminate | exact H1].
Qed.

(** X19.  For a sound configuration (finite values, a step scale that is
    not negative, a physical travel of at least twice the keepout boundary,
    at least 60 steps per minute of speed and one step per second squared
    of acceleration, and no derived quantity above 2^30) [begin] completes
    and derives limits that satisfy what every later clamp relies on:
    [minStep = 0 <= maxStep], [1 <= maxStepPerSecond] and
    [1 <= maxStepAcceleration]. *)
Theorem begin_derives_valid_limits (physics : machineGeometry)
    (motor : motorProperties) (connected : option FastAccelStepper) (w : world)
    (travel keepout scale rpm rev acc : Q) :
  physicalTravel physics = Fp.Fin travel ->
  keepoutBoundary physics = Fp.Fin keepout ->
  stepsPerMillimeter motor = Fp.Fin scale ->
  maxRPM motor = Fp.Fin rpm ->
  stepsPerRevolution motor = Fp.Fin rev ->
  maxAcceleration motor = Fp.Fin acc ->
  (0 <= scale)%Q ->
  (inject_Z 2 * keepout <= travel)%Q ->
  ((travel + - (inject_Z 2 * keepout)) * scale <= inject_Z (2 ^ 30))%Q ->
  (inject_Z 60 <= rpm * rev)%Q ->
  (rpm * rev <= inject_Z (2 ^ 30) * inject_Z 60)%Q ->
  (1 <= acc * rev)%Q ->
  (acc * rev <= inject_Z (2 ^ 30))%Q ->
  exists w' : world,
    begin physics motor connected w = Some (tt, w')
    /\ _minStep (this w') = 0
    /\ 0 <= _maxStep (this w')
    /\ 1 <= _maxStepPerSecond (this w')
    /\ 1 <= _maxStepAcceleration (this w').
Proof.
  intros Ht Hk Hs Hrpm Hrev Hacc Hscale Hkeep Hfit Hspeed Hspeed' Haccel Haccel'.
  assert (Hpos : (0 <= (travel + - (inject_Z 2 * keepout)) * scale)%Q).
  { apply Qmult_le_0_compat; [|exact Hscale].
    apply (Qplus_le_l _ _ (inject_Z 2 * keepout)). ring_simplify. exact Hkeep. }
  destruct (to_int_rounded _ Hpos Hfit) as (maxStep & HmaxStep & Hmax0 & _).
  assert (Hsps1 : (1 <= rpm * rev / inject_Z 60)%Q).
  { apply Qle_shift_div_l; [reflexivity|]. rewrite Qmult_1_l. exact Hspeed. }
  assert (Hsps0 : (0 <= rpm * rev / inject_Z 60)%Q)
    by (apply (Qle_trans _ 1); [discriminate | exact Hsps1]).
  assert (Hspshi : (rpm * rev / inject_Z 60 <= inject_Z (2 ^ 30))%Q)
    by (apply Qle_shift_div_r; [reflexivity | exact Hspeed']).
  destruct (to_int_rounded _ Hsps0 Hspshi) as (sps & Hsps & _ & Hspsge).
  assert (Hacc0 : (0 <= acc * rev)%Q)
    by (apply (Qle_trans _ 1); [discriminate | exact Haccel]).
  destruct (to_int_rounded _ Hacc0 Haccel') as (msa & Hmsa & _ & Hmsage).
  unfold begin. unfold bind at 1. unfold update at 1. unfold bind at 1. unfold self.
  cbn [this set_this set_config _physics _motor].
  rewrite Ht, Hk, Hs, Hrpm, Hrev, Hacc.
  assert (Hdiv : Fp.div (Fp.mul (Fp.Fin rpm) (Fp.Fin rev)) (Fp.of_int 60)
                 = Fp.Fin (rpm * rev / inject_Z 60)) by reflexivity.
  rewrite Hdiv.
  cbn [Fp.sub Fp.mul Fp.neg Fp.add Fp.of_int].
  unfold bind at 1. unfold lift at 1. rewrite HmaxStep.
  unfold bind at 1. unfold lift at 1. rewrite Hsps.
  unfold bind at 1. unfold lift at 1. rewrite Hmsa.
  specialize (Hspsge Hsps1). specialize (Hmsage Haccel).
  destruct connected as [sv|].
  - eexists. split; [unfold bind, update, servo_do, self, ret; reflexivity|].
    cbn. repeat split; try reflexivity; assumption.
  - eexists. split; [unfold bind, update, servo_do, self, ret; reflexivity|].
    cbn. repeat split; try reflexivity; assumption.
Qed.

Lemma begin_derives_valid_limits_witness :
  exists w' : world,
    begin Sample.geometry Sample.motor (Some Sample.stepper) Sample.blank = Some (tt, w')
    /\ 0 <= _maxStep (this w')
    /\ 1 <= _maxStepPerSecond (this w')
    /\ 1 <= _maxStepAcceleration (this w').
Proof.
  destruct (begin_derives_valid_limits Sample.geometry Sample.motor
              (Some Sample.stepper) Sample.blank 160 5 50 3000 800 300
              eq_refl eq_refl eq_refl eq_refl eq_refl eq_refl
              ltac:(vm_compute; discriminate) ltac:(vm_compute; discriminate)
              ltac:(vm_compute; discriminate) ltac:(vm_compute; discriminate)
              ltac:(vm_compute; discriminate) ltac:(vm_compute; discriminate)
              ltac:(vm_compute; discriminate))
    as (w' & Hrun & _ & Hmax & Hsps & Hmsa).
  exists w'. repeat split; assumption.
Defined.

(** ** The crash-avoidance override of a stroking cycle *)



(** ** What a setter changes *)




